(** * confluence-exporter: the acquisition and delivery pipeline

    A shallow embedding of the Go sources

      - [internal/api]  : [sendRequest], [GetSpaces], [GetPages], [GetPage],
                          [GetChildPages]
      - [cmd/exporter]  : [exportSpace], [fetchPageTree],
                          [collectChildPages], [getSafeFilename]
      - [internal/db]   : [InitDB], [InsertPage]

    Go functions that perform I/O become computations in a small monad [M]
    that threads a [World] (the requests sent so far, the lines written
    with [log.Printf], the calls made to the output handler and the state
    of its sink) and returns either a value, an [error], or [Hang] when
    the bound on loop iterations and on recursion depth is exhausted.  An
    outcome other than [Hang] does not depend on the bound (section
    [Bound]); a computation that is [Hang] for every bound is one that
    never returns.

    The server is a function from requests to answers: its content does
    not change while an export runs. *)

From Stdlib Require Import String Ascii List ZArith Lia Bool Arith.
From Stdlib Require Import DecimalString.
Import ListNotations.

Open Scope string_scope.
Open Scope list_scope.

Set Warnings "-register-all".

(** ** Pieces of the Go standard library with a concrete model *)

(** Go's [error], carried as its message. *)
Definition error : Type := string.

(** [len(s)] of a slice, as a Go [int]. *)
Definition len {A : Type} (s : list A) : Z := Z.of_nat (length s).

(** [strconv.Itoa]. *)
Definition strconv_Itoa (i : Z) : string :=
  NilZero.string_of_int (Z.to_int i).

(** [url.Values] with [Add]: the (key, value) pairs in insertion order. *)
Definition Values : Type := list (string * string).

Definition Values_Add (v : Values) (key value : string) : Values :=
  v ++ [(key, value)].

(** [strings.NewReplacer] over single-byte pairs and its [Replace]: every
    byte is looked up among the old bytes, in argument order, and replaced
    by the matching new byte; other bytes are copied. *)
Definition Replacer : Type := list (ascii * ascii).

Fixpoint Replacer_lookup (r : Replacer) (b : ascii) : option ascii :=
  match r with
  | [] => None
  | (old, new) :: r' => if Ascii.eqb old b then Some new else Replacer_lookup r' b
  end.

Definition Replacer_byte (r : Replacer) (b : ascii) : ascii :=
  match Replacer_lookup r b with
  | Some new => new
  | None => b
  end.

Fixpoint Replacer_Replace (r : Replacer) (s : string) : string :=
  match s with
  | EmptyString => EmptyString
  | String b s' => String (Replacer_byte r b) (Replacer_Replace r s')
  end.

(** ** package models *)

Module models.

(** Modelled from the spec: the declaration of [models.Space] is not among
    the sources; the code reads its [Key]. *)
Record Space : Type := { Key : string }.

(** Modelled from the spec: the declaration of [models.Page] is not among
    the sources; these are the fields the code writes and reads
    ([{id, title, spaceKey, parentID, version, rawBody, url}]). *)
Record Page : Type := {
  ID : string;
  Title : string;
  SpaceKey : string;
  Version : Z;
  Content : string;
  URL : string;
  ParentID : string
}.

End models.

(** ** net/http and net/url *)

Record url_URL : Type := {
  Scheme : string;
  Host : string;
  Path : string;
  RawQuery : string
}.

Definition set_RawQuery (u : url_URL) (q : string) : url_URL :=
  {| Scheme := Scheme u; Host := Host u; Path := Path u; RawQuery := q |}.

Record Request : Type := {
  Method : string;
  ReqURL : string;
  Header : list (string * string)
}.

Definition Header_Add (r : Request) (key value : string) : Request :=
  {| Method := Method r; ReqURL := ReqURL r;
     Header := Header r ++ [(key, value)] |}.

(** The anonymous structs that the JSON bodies are decoded into, with the
    nested one-field structs ([Space.Key], [Body.Storage.Value],
    [Version.Number], [_links.webui]) flattened. *)
Record pageResult : Type := {
  r_ID : string;
  r_Title : string;
  r_Type : string;
  r_Space_Key : string;
  r_Body_Storage_Value : string;
  r_Version_Number : Z;
  r_Links_WebUI : string
}.

Record pageDetail : Type := {
  d_ID : string;
  d_Title : string;
  d_Space_Key : string;
  d_Body_Storage_Value : string;
  d_Version_Number : Z;
  d_Links_WebUI : string;
  d_Ancestors : list string
}.

Record listing (R : Type) : Type := {
  Results : list R;
  Size : Z;
  Limit : Z
}.

Arguments Results {R} l.
Arguments Size {R} l.
Arguments Limit {R} l.

(** The outcome of a computation: a value, [return nil, err], or no
    outcome within the bound on iterations. *)
Inductive result (A : Type) : Type :=
| Ok (a : A)
| Err (e : error)
| Hang.

Arguments Ok {A} a.
Arguments Err {A} e.
Arguments Hang {A}.

(** What the program does not define itself: the library functions used
    to build a request and to decode a response body, and the state kept
    by the output handler.  [json_*] stand for
    [json.NewDecoder(resp.Body).Decode(&result)] at the three result
    types. *)
Class Externals : Type := {
  Body : Type;
  SinkState : Type;
  url_Parse : string -> error + url_URL;
  path_Join : string -> string -> string;
  URL_ResolveReference : url_URL -> url_URL -> url_URL;
  Values_Encode : Values -> string;
  URL_String : url_URL -> string;
  http_NewRequest : string -> string -> option Body -> error + Request;
  base64_EncodeToString : string -> string;
  json_Decode_spaces : Body -> error + listing models.Space;
  json_Decode_pages : Body -> error + listing pageResult;
  json_Decode_page : Body -> error + pageDetail
}.

Section Program.

Context `{Ext : Externals}.

Record Response : Type := {
  StatusCode : Z;
  RespBody : Body
}.

(** [*http.Client]: [Do] answers with a response or, when the exchange
    itself fails, an error.  The answer depends on the request only: the
    content of the server does not change during an export. *)
Record http_Client : Type := {
  Timeout : Z;
  Do : Request -> error + Response
}.

(** ** The world and the monad *)

Record SaveCall : Type := {
  savedPage : models.Page;
  savedScope : string
}.

Record World : Type := {
  requests : list Request;
  logs : list string;
  saves : list SaveCall;
  sink : SinkState
}.

Definition M (A : Type) : Type := World -> result A * World.

Definition ret {A : Type} (a : A) : M A := fun w => (Ok a, w).

(** [return nil, err]. *)
Definition raise {A : Type} (e : error) : M A := fun w => (Err e, w).

Definition hang {A : Type} : M A := fun w => (Hang, w).

(** [x, err := m; if err != nil { return nil, err }; k x]. *)
Definition bind {A B : Type} (m : M A) (k : A -> M B) : M B :=
  fun w =>
    match m w with
    | (Ok a, w') => k a w'
    | (Err e, w') => (Err e, w')
    | (Hang, w') => (Hang, w')
    end.

(** [x, err := m; if err != nil { return nil, f err }]. *)
Definition wrapErr {A : Type} (f : error -> error) (m : M A) : M A :=
  fun w =>
    match m w with
    | (Err e, w') => (Err (f e), w')
    | r => r
    end.

Definition ofSum {A : Type} (r : error + A) : M A :=
  match r with
  | inl e => raise e
  | inr a => ret a
  end.

Definition sent (req : Request) (w : World) : World :=
  {| requests := requests w ++ [req]; logs := logs w;
     saves := saves w; sink := sink w |}.

Definition logged (line : string) (w : World) : World :=
  {| requests := requests w; logs := logs w ++ [line];
     saves := saves w; sink := sink w |}.

(** [log.Printf], without the date, time and file prefix. *)
Definition log_Printf (line : string) : M unit :=
  fun w => (Ok tt, logged line w).

(** [c.Do(req)]: the request goes out, the answer comes back. *)
Definition http_Client_Do (c : http_Client) (req : Request) : M Response :=
  fun w =>
    match Do c req with
    | inl e => (Err e, sent req w)
    | inr resp => (Ok resp, sent req w)
    end.

End Program.

Declare Scope go_scope.
Delimit Scope go_scope with go.
Notation "x <- m ;; k" := (bind m (fun x => k))
  (at level 61, m at next level, right associativity) : go_scope.
Notation "m ;;; k" := (bind m (fun _ => k))
  (at level 61, right associativity) : go_scope.

Local Open Scope go_scope.

(** ** package api *)

Module api.

Section Client.

Context `{Ext : Externals}.

(** ConfluenceClient handles all interactions with the Confluence API. *)
Record ConfluenceClient : Type := {
  BaseURL : string;
  Username : string;
  APIToken : string;
  HTTPClient : http_Client
}.

(** [NewConfluenceClient]; the network the [http.Client] talks to is the
    argument [net], the timeout is 30 s in nanoseconds. *)
Definition NewConfluenceClient (net : Request -> error + Response)
    (baseURL username apiToken : string) : ConfluenceClient :=
  {| BaseURL := baseURL;
     Username := username;
     APIToken := apiToken;
     HTTPClient := {| Timeout := (30 * 1000000000)%Z; Do := net |} |}.

(** [sendRequest] sends an HTTP request to the Confluence API. *)
Definition sendRequest (c : ConfluenceClient) (method endpoint : string)
    (params : option Values) (body : option Body) : M Response :=
  match url_Parse (BaseURL c) with
  | inl err => raise err
  | inr baseURL =>
      (* Join the base URL path with the endpoint *)
      let apiURL :=
        URL_ResolveReference baseURL
          {| Scheme := EmptyString; Host := EmptyString;
             Path := path_Join (Path baseURL) endpoint; RawQuery := EmptyString |} in
      (* Add query parameters *)
      let apiURL :=
        match params with
        | Some p => set_RawQuery apiURL (Values_Encode p)
        | None => apiURL
        end in
      (* Create request *)
      match http_NewRequest method (URL_String apiURL) body with
      | inl err => raise err
      | inr req =>
          (* Add basic auth header *)
          let auth := base64_EncodeToString (Username c ++ ":" ++ APIToken c) in
          let req := Header_Add req "Authorization" ("Basic " ++ auth) in
          let req := Header_Add req "Content-Type" "application/json" in
          (* Send the request *)
          http_Client_Do (HTTPClient c) req
      end
  end.

(** The loop shared by [GetSpaces], [GetPages] and [GetChildPages]:

      for {
        <fetch one page of results at start>
        <append the converted results to all>
        if len(result.Results) < limit { break }
        start += limit
      }
      return all, nil

    [fuel] bounds the number of iterations.  [start] is a Go [int] that
    never wraps around: an iteration that continues has appended at least
    [limit] records, so that [start] stays below [len(all)] (lemma
    [offset_le_collected]). *)
Fixpoint pageLoop {R A : Type} (fuel : nat) (limit : Z)
    (fetch : Z -> M (listing R)) (conv : R -> A)
    (start : Z) (all : list A) : M (list A) :=
  match fuel with
  | O => hang
  | S fuel' =>
      result <- fetch start ;;
      let all := all ++ map conv (Results result) in
      if (len (Results result) <? limit)%Z then ret all
      else pageLoop fuel' limit fetch conv (start + limit)%Z all
  end.

(** The request and decoding of one page of [GetSpaces]. *)
Definition fetchSpaces (c : ConfluenceClient) (limit start : Z)
    : M (listing models.Space) :=
  let endpoint := "/rest/api/space" in
  let params := [] in
  let params := Values_Add params "start" (strconv_Itoa start) in
  let params := Values_Add params "limit" (strconv_Itoa limit) in
  resp <- sendRequest c "GET" endpoint (Some params) None ;;
  ofSum (json_Decode_spaces (RespBody resp)).

(** [GetSpaces] retrieves all spaces the user has access to. *)
Definition GetSpaces (fuel : nat) (c : ConfluenceClient)
    : M (list models.Space) :=
  let start := 0%Z in
  let limit := 25%Z in
  pageLoop fuel limit (fetchSpaces c limit) (fun s => s) start [].

(** The request and decoding of one page of [GetPages]. *)
Definition fetchPages (c : ConfluenceClient) (spaceKey : string)
    (limit start : Z) : M (listing pageResult) :=
  let endpoint := "/rest/api/content" in
  let params := [] in
  let params := Values_Add params "spaceKey" spaceKey in
  let params := Values_Add params "type" "page" in
  let params := Values_Add params "expand" "body.storage,version,space" in
  let params := Values_Add params "start" (strconv_Itoa start) in
  let params := Values_Add params "limit" (strconv_Itoa limit) in
  resp <- sendRequest c "GET" endpoint (Some params) None ;;
  ofSum (json_Decode_pages (RespBody resp)).

(** The [models.Page] built from one result of [GetPages]; [ParentID] is
    not set. *)
Definition spacePage (p : pageResult) : models.Page :=
  {| models.ID := r_ID p;
     models.Title := r_Title p;
     models.SpaceKey := r_Space_Key p;
     models.Version := r_Version_Number p;
     models.Content := r_Body_Storage_Value p;
     models.URL := r_Links_WebUI p;
     models.ParentID := EmptyString |}.

(** [GetPages] retrieves all pages in a space. *)
Definition GetPages (fuel : nat) (c : ConfluenceClient) (spaceKey : string)
    : M (list models.Page) :=
  let start := 0%Z in
  let limit := 25%Z in
  pageLoop fuel limit (fetchPages c spaceKey limit) spacePage start [].

(** [GetPage] retrieves a single page by its ID. *)
Definition GetPage (c : ConfluenceClient) (pageID : string)
    : M models.Page :=
  let endpoint := ("/rest/api/content/" ++ pageID)%string in
  let params := Values_Add [] "expand" "body.storage,version,space,ancestors" in
  resp <- sendRequest c "GET" endpoint (Some params) None ;;
  result <- ofSum (json_Decode_page (RespBody resp)) ;;
  ret {| models.ID := d_ID result;
         models.Title := d_Title result;
         models.SpaceKey := d_Space_Key result;
         models.Version := d_Version_Number result;
         models.Content := d_Body_Storage_Value result;
         models.URL := d_Links_WebUI result;
         models.ParentID :=
           if (0 <? len (d_Ancestors result))%Z
           then last (d_Ancestors result) EmptyString
           else EmptyString |}.

(** The request and decoding of one page of [GetChildPages]. *)
Definition fetchChildPages (c : ConfluenceClient) (parentPageID : string)
    (limit start : Z) : M (listing pageResult) :=
  let endpoint := ("/rest/api/content/" ++ parentPageID ++ "/child/page")%string in
  let params := [] in
  let params := Values_Add params "expand" "body.storage,version,space" in
  let params := Values_Add params "start" (strconv_Itoa start) in
  let params := Values_Add params "limit" (strconv_Itoa limit) in
  resp <- sendRequest c "GET" endpoint (Some params) None ;;
  ofSum (json_Decode_pages (RespBody resp)).

(** The [models.Page] built from one result of [GetChildPages]. *)
Definition childPage (parentPageID : string) (p : pageResult) : models.Page :=
  {| models.ID := r_ID p;
     models.Title := r_Title p;
     models.SpaceKey := r_Space_Key p;
     models.Version := r_Version_Number p;
     models.Content := r_Body_Storage_Value p;
     models.URL := r_Links_WebUI p;
     models.ParentID := parentPageID |}.

(** [GetChildPages] retrieves all direct child pages for a given parent
    page ID. *)
Definition GetChildPages (fuel : nat) (c : ConfluenceClient)
    (parentPageID : string) : M (list models.Page) :=
  let start := 0%Z in
  let limit := 25%Z in
  pageLoop fuel limit (fetchChildPages c parentPageID limit)
    (childPage parentPageID) start [].

End Client.

End api.

(** ** package output (interface only) *)

Module output.

Section Handler.

Context `{Ext : Externals}.

(** Modelled from the spec: the package [internal/output] is not among
    the sources.  A [Handler] is a sink with the capability set
    [{Initialize, SavePage(page, scopeKey), Close}]; the pipeline driver
    calls [SavePage(client, page, scopeKey)], which returns an [error] or
    [nil] and updates the state of the sink. *)
Record Handler : Type := {
  SavePage : api.ConfluenceClient -> models.Page -> string ->
             SinkState -> option error * SinkState
}.

(** The call [handler.SavePage(client, page, scopeKey)]. *)
Definition Handler_SavePage (h : Handler) (client : api.ConfluenceClient)
    (page : models.Page) (scopeKey : string) : M unit :=
  fun w =>
    let '(err, s) := SavePage h client page scopeKey (sink w) in
    let w' := {| requests := requests w; logs := logs w;
                 saves := saves w ++
                   [{| savedPage := page; savedScope := scopeKey |}];
                 sink := s |} in
    match err with
    | Some e => (Err e, w')
    | None => (Ok tt, w')
    end.

End Handler.

End output.

(** ** package main (cmd/exporter) *)

Module exporter.

Section Driver.

Context `{Ext : Externals}.

(** [if err := m; err != nil { handle err; continue }]. *)
Definition orElse (m : M unit) (handle : error -> M unit) : M unit :=
  fun w =>
    match m w with
    | (Err e, w') => handle e w'
    | r => r
    end.

(** [for _, page := range pages { body page }]. *)
Fixpoint forEach (pages : list models.Page) (body : models.Page -> M unit)
    : M unit :=
  match pages with
  | [] => ret tt
  | page :: rest => body page ;;; forEach rest body
  end.

(** [exportSpace].  The progress bar written to standard output between
    two pages is computed over floating point numbers and the wall clock
    and has no effect on the pages saved; it is left out, and with it the
    arguments [cfg] (unused in the source) and [progress]. *)
Definition exportSpace (fuel : nat) (client : api.ConfluenceClient)
    (spaceKey : string) (handler : output.Handler) : M unit :=
  (* Get all pages from specified space *)
  log_Printf ("🔍 Fetching pages from space: " ++ spaceKey) ;;;
  pages <- wrapErr (fun err => "failed to fetch pages: " ++ err)%string
             (api.GetPages fuel client spaceKey) ;;
  log_Printf ("📚 Found " ++ strconv_Itoa (len pages) ++
              " pages to export in space " ++ spaceKey) ;;;
  (* Process each page *)
  forEach pages (fun page =>
    (* Save page using the output handler *)
    orElse (output.Handler_SavePage handler client page spaceKey)
      (fun err =>
         log_Printf ("❌ Failed to save page " ++ models.Title page ++
                     ": " ++ err))) ;;;
  ret tt.

(** [for _, child := range children {
       subtree, err := collectChildPages(client, child)
       if err != nil { return nil, err }
       pages = append(pages, subtree...) }
     return pages, nil] *)
Fixpoint appendSubtrees (walk : models.Page -> M (list models.Page))
    (children : list models.Page) (pages : list models.Page)
    : M (list models.Page) :=
  match children with
  | [] => ret pages
  | child :: rest =>
      subtree <- walk child ;;
      appendSubtrees walk rest (pages ++ subtree)
  end.

(** [collectChildPages] recursively collects descendant pages for the
    provided page.  [fuel] bounds the depth of the recursion and the
    iterations of each listing. *)
Fixpoint collectChildPages (fuel : nat) (client : api.ConfluenceClient)
    (page : models.Page) : M (list models.Page) :=
  match fuel with
  | O => hang
  | S fuel' =>
      let pages := [page] in
      children <-
        wrapErr (fun err => "failed to fetch child pages for " ++
                            models.ID page ++ ": " ++ err)%string
          (api.GetChildPages fuel' client (models.ID page)) ;;
      appendSubtrees (collectChildPages fuel' client) children pages
  end.

(** [fetchPageTree] retrieves a page and all of its descendant pages. *)
Definition fetchPageTree (fuel : nat) (client : api.ConfluenceClient)
    (rootPageID : string) : M (list models.Page) :=
  rootPage <-
    wrapErr (fun err => "failed to fetch root page " ++ rootPageID ++
                        ": " ++ err)%string
      (api.GetPage client rootPageID) ;;
  let allPages := [rootPage] in
  children <-
    wrapErr (fun err => "failed to fetch child pages for " ++ rootPageID ++
                        ": " ++ err)%string
      (api.GetChildPages fuel client (models.ID rootPage)) ;;
  appendSubtrees (collectChildPages fuel client) children allPages.

End Driver.

(** [getSafeFilename] converts a string to a safe filename. *)
Definition getSafeFilename (name : string) : string :=
  (* Replace characters that are not allowed in filenames *)
  let replacer : Replacer :=
    [ ("/", "-");
      ("\", "-");
      (":", "-");
      ("*", "-");
      ("?", "-");
      ("034", "-");
      ("<", "-");
      (">", "-");
      ("|", "-");
      (" ", "_") ]%char in
  Replacer_Replace replacer name.

End exporter.

(** ** package db *)

Module db.

Record Page : Type := {
  Title : string;
  Body : string;
  Link : string;
  UID : string
}.

(** A row of the table [pages (uid VARCHAR PRIMARY KEY, title VARCHAR,
    body VARCHAR, link VARCHAR)]. *)
Record Row : Type := {
  uid : string;
  title : string;
  body : string;
  link : string
}.

(** The database file: unreadable, or a database in which the table
    [pages] exists or not. *)
Inductive File : Type :=
| Unreadable (reason : error)
| Database (pages : option (list Row)).

(** [*sql.DB]: an open or closed handle on the content of the database. *)
Record DB : Type := {
  closed : bool;
  pages : option (list Row)
}.

(** [sql.Open("duckdb", dbPath)]. *)
Definition sql_Open (f : File) : error + DB :=
  match f with
  | Unreadable reason => inl reason
  | Database t => inr {| closed := false; pages := t |}
  end.

(** [db.Exec("CREATE TABLE IF NOT EXISTS pages (...)")]. *)
Definition Exec_CreateTableIfNotExists (d : DB) : option error * DB :=
  if closed d then (Some "sql: database is closed", d)
  else match pages d with
       | Some _ => (None, d)
       | None => (None, {| closed := false; pages := Some [] |})
       end.

(** [db.Exec("INSERT OR REPLACE INTO pages (uid, title, body, link)
    VALUES (?, ?, ?, ?)", ...)]: the row whose primary key is that of the
    new row, if any, is deleted, and the new row is inserted. *)
Definition Exec_InsertOrReplace (d : DB) (r : Row) : option error * DB :=
  if closed d then (Some "sql: database is closed", d)
  else match pages d with
       | None => (Some "Catalog Error: Table with name pages does not exist!", d)
       | Some rows =>
           (None,
            {| closed := false;
               pages := Some (filter (fun x => negb (String.eqb (uid x) (uid r)))
                                     rows ++ [r]) |})
       end.

(** [InitDB] initializes the DuckDB database and creates the pages table
    if it doesn't exist. *)
Definition InitDB (dbPath : File) : error + DB :=
  match sql_Open dbPath with
  | inl err => inl ("failed to open database: " ++ err)%string
  | inr d =>
      (* Create table if it doesn't exist *)
      match Exec_CreateTableIfNotExists d with
      | (Some err, _) => inl ("failed to create table: " ++ err)%string
      | (None, d') => inr d'
      end
  end.

(** [InsertPage] inserts a page into the database or updates it if it
    already exists. *)
Definition InsertPage (d : DB) (page : Page) : option error * DB :=
  match Exec_InsertOrReplace d
          {| uid := UID page; title := Title page;
             body := Body page; link := Link page |} with
  | (Some err, d') => (Some ("failed to insert/update page: " ++ err)%string, d')
  | (None, d') => (None, d')
  end.

(** The rows of the table [pages] whose [uid] is [u]. *)
Definition rowsWithUID (d : DB) (u : string) : list Row :=
  match pages d with
  | Some rows => filter (fun x => String.eqb (uid x) u) rows
  | None => []
  end.

End db.

(** ** Definitions used to state the properties *)

(** The bytes [getSafeFilename] is meant to remove: slash, backslash,
    colon, star, question mark, double quote, the angle brackets, the
    vertical bar and the space. *)
Definition hostile : list ascii :=
  [ "/"; "\"; ":"; "*"; "?"; "034"; "<"; ">"; "|"; " " ]%char.

Definition isHostile (b : ascii) : bool := existsb (Ascii.eqb b) hostile.

(** What [getSafeFilename] is expected to do to one byte. *)
Definition safeByte (b : ascii) : ascii :=
  if isHostile b then (if Ascii.eqb b " " then "_" else "-")%char else b.

Section Views.

Context `{Ext : Externals}.

(** The request [sendRequest] builds, or the error it stops at before
    anything is sent. *)
Definition buildRequest (c : api.ConfluenceClient) (method endpoint : string)
    (params : option Values) (body : option Body) : error + Request :=
  match url_Parse (api.BaseURL c) with
  | inl err => inl err
  | inr baseURL =>
      let joined :=
        URL_ResolveReference baseURL
          {| Scheme := EmptyString; Host := EmptyString;
             Path := path_Join (Path baseURL) endpoint;
             RawQuery := EmptyString |} in
      let apiURL :=
        match params with
        | Some p => set_RawQuery joined (Values_Encode p)
        | None => joined
        end in
      match http_NewRequest method (URL_String apiURL) body with
      | inl err => inl err
      | inr req =>
          inr (Header_Add
                 (Header_Add req "Authorization"
                    ("Basic " ++
                     base64_EncodeToString
                       (api.Username c ++ ":" ++ api.APIToken c)))
                 "Content-Type" "application/json")
      end
  end.

(** A status in the range 200..299. *)
Definition is2xx (resp : Response) : bool :=
  ((200 <=? StatusCode resp) && (StatusCode resp <? 300))%Z.

(** The world after the requests [reqs] have been sent, in order. *)
Definition sentAll (reqs : list Request) (w : World) : World :=
  fold_left (fun w req => sent req w) reqs w.

(** The request with query [params] on [endpoint] is built as [req], the
    server answers it, and the body of the answer decodes to [page]. *)
Definition exchange {R : Type} (c : api.ConfluenceClient) (endpoint : string)
    (params : Values) (decode : Body -> error + R)
    (req : Request) (page : R) : Prop :=
  buildRequest c "GET" endpoint (Some params) None = inr req /\
  exists resp, Do (api.HTTPClient c) req = inr resp /\
               decode (RespBody resp) = inr page.

(** The query parameters of the three listings at offset [start]. *)
Definition spacesParams (limit start : Z) : Values :=
  [ ("start", strconv_Itoa start); ("limit", strconv_Itoa limit) ].

Definition pagesParams (spaceKey : string) (limit start : Z) : Values :=
  [ ("spaceKey", spaceKey); ("type", "page");
    ("expand", "body.storage,version,space");
    ("start", strconv_Itoa start); ("limit", strconv_Itoa limit) ].

Definition childParams (limit start : Z) : Values :=
  [ ("expand", "body.storage,version,space");
    ("start", strconv_Itoa start); ("limit", strconv_Itoa limit) ].

Definition childEndpoint (parentPageID : string) : string :=
  "/rest/api/content/" ++ parentPageID ++ "/child/page".

(** The server delivers a collection as the pages [full ++ [last]]: the
    request number [i] asks for offset [limit * i] and is answered with
    page number [i]; the pages of [full] hold at least [limit] records,
    [last] holds fewer. *)
Definition delivers {R : Type} (c : api.ConfluenceClient) (endpoint : string)
    (params : Z -> Values) (decode : Body -> error + listing R) (limit : Z)
    (full : list (listing R)) (last : listing R) (reqs : list Request) : Prop :=
  length reqs = S (length full) /\
  Forall (fun page => (limit <= len (Results page))%Z) full /\
  (len (Results last) < limit)%Z /\
  forall i req page,
    nth_error reqs i = Some req ->
    nth_error (full ++ [last]) i = Some page ->
    exchange c endpoint (params (limit * Z.of_nat i)%Z) decode req page.

(** The records of the pages, in response order. *)
Definition records {R : Type} (pages : list (listing R)) : list R :=
  flat_map Results pages.

(** The request with query [params] on [endpoint] fails with [e]: it
    cannot be built, or the exchange fails, or the body of the answer
    does not decode. *)
Definition failsWith {R : Type} (c : api.ConfluenceClient) (endpoint : string)
    (params : Values) (decode : Body -> error + R) (e : error) : Prop :=
  buildRequest c "GET" endpoint (Some params) None = inl e \/
  exists req,
    buildRequest c "GET" endpoint (Some params) None = inr req /\
    (Do (api.HTTPClient c) req = inl e \/
     exists resp, Do (api.HTTPClient c) req = inr resp /\
                  decode (RespBody resp) = inl e).

(** The server delivers the pages [full], each with at least [limit]
    records, and the next request, at offset [limit * length full], fails
    with [e]. *)
Definition breaksAfter {R : Type} (c : api.ConfluenceClient)
    (endpoint : string) (params : Z -> Values)
    (decode : Body -> error + listing R) (limit : Z)
    (full : list (listing R)) (reqs : list Request) (e : error) : Prop :=
  length reqs = length full /\
  Forall (fun page => (limit <= len (Results page))%Z) full /\
  (forall i req page,
      nth_error reqs i = Some req ->
      nth_error full i = Some page ->
      exchange c endpoint (params (limit * Z.of_nat i)%Z) decode req page) /\
  failsWith c endpoint (params (limit * Z.of_nat (length full))%Z) decode e.

(** One request and the decoding of its answer, as in the body of the
    three listing loops. *)
Definition fetchWith {R : Type} (c : api.ConfluenceClient) (endpoint : string)
    (params : Values) (decode : Body -> error + R) : M R :=
  (resp <- api.sendRequest c "GET" endpoint (Some params) None ;;
   ofSum (decode (RespBody resp)))%go.

(** The listing [run] returns the records of [full ++ [last]], converted
    by [conv] and in response order, after sending exactly the requests
    [reqs]: one per page. *)
Definition collects {R A : Type} (run : M (list A)) (conv : R -> A)
    (full : list (listing R)) (last : listing R) (reqs : list Request)
    (w : World) : Prop :=
  run w = (Ok (map conv (records (full ++ [last]))), sentAll reqs w) /\
  length (map conv (records (full ++ [last])))
  = list_sum (map (fun page => length (Results page)) (full ++ [last])) /\
  length reqs = S (length full).

(** The outcomes of [SavePage] on [pages], one after the other, from the
    sink state [s], and the sink state left. *)
Fixpoint savePages (h : output.Handler) (c : api.ConfluenceClient)
    (scopeKey : string) (pages : list models.Page) (s : SinkState)
    : list (option error) * SinkState :=
  match pages with
  | [] => ([], s)
  | page :: rest =>
      let '(err, s1) := output.SavePage h c page scopeKey s in
      let '(errs, s2) := savePages h c scopeKey rest s1 in
      (err :: errs, s2)
  end.

(** One line per page whose save failed, with the title of the page. *)
Fixpoint failureLines (pages : list models.Page) (errs : list (option error))
    : list string :=
  match pages, errs with
  | page :: pages', Some err :: errs' =>
      ("❌ Failed to save page " ++ models.Title page ++ ": " ++ err)%string
      :: failureLines pages' errs'
  | _ :: pages', None :: errs' => failureLines pages' errs'
  | _, _ => []
  end.

(** The child listing of [parentPageID] delivers the records [kids]. *)
Definition listed (c : api.ConfluenceClient) (parentPageID : string)
    (kids : list pageResult) : Prop :=
  exists full last reqs,
    delivers c (childEndpoint parentPageID) (childParams 25)
      json_Decode_pages 25 full last reqs /\
    records (full ++ [last]) = kids.

(** The [models.Page] that [GetPage] builds from the decoded answer. *)
Definition detailPage (d : pageDetail) : models.Page :=
  {| models.ID := d_ID d;
     models.Title := d_Title d;
     models.SpaceKey := d_Space_Key d;
     models.Version := d_Version_Number d;
     models.Content := d_Body_Storage_Value d;
     models.URL := d_Links_WebUI d;
     models.ParentID :=
       if (0 <? len (d_Ancestors d))%Z
       then List.last (d_Ancestors d) EmptyString
       else EmptyString |}.

(** The answer to [GetPage(rootPageID)] decodes to [d]. *)
Definition rootServed (c : api.ConfluenceClient) (rootPageID : string)
    (d : pageDetail) : Prop :=
  exists req,
    exchange c ("/rest/api/content/" ++ rootPageID)
      [("expand", "body.storage,version,space,ancestors")]
      json_Decode_page req d.

End Views.

(** An id-graph as the server presents it.  [healthy c G]: the ids of
    [G] are closed under the child relation and each of their child
    listings is delivered.  [descends c G S]: every id of [S] has a child
    in [S], beside children in [G]; such are the ids of a cycle, and the
    ids from which a cycle is reached. *)
Definition healthy `{Ext : Externals} (c : api.ConfluenceClient)
    (G : string -> Prop) : Prop :=
  forall id, G id ->
    exists kids, listed c id kids /\ Forall (fun k => G (r_ID k)) kids.

Definition descends `{Ext : Externals} (c : api.ConfluenceClient)
    (G S : string -> Prop) : Prop :=
  forall id, S id ->
    exists kids kid,
      listed c id kids /\ Forall (fun k => G (r_ID k)) kids /\
      In kid kids /\ S (r_ID kid).

(** A finite tree of page records: a page and the trees of its children,
    in the order of the child listing. *)
Inductive tree : Type :=
| Node (r : pageResult) (kids : list tree).

Definition rootOf (t : tree) : pageResult :=
  match t with Node r _ => r end.

(** The pages of a tree in pre-order, each with the [ParentID] that
    [GetChildPages] gives it. *)
Fixpoint preorder (parentPageID : string) (t : tree) : list models.Page :=
  match t with
  | Node r kids =>
      api.childPage parentPageID r :: flat_map (preorder (r_ID r)) kids
  end.

(** The ids of a tree in pre-order. *)
Fixpoint treeIDs (t : tree) : list string :=
  match t with
  | Node r kids => r_ID r :: flat_map treeIDs kids
  end.

(** The server holds the tree [t]: the child listing of every node
    delivers the roots of its children. *)
Inductive serves `{Ext : Externals} (c : api.ConfluenceClient)
    : tree -> Prop :=
| serves_Node (r : pageResult) (kids : list tree) :
    listed c (r_ID r) (map rootOf kids) ->
    Forall (serves c) kids ->
    serves c (Node r kids).

(** ** A test double for the library functions and for the server *)

Module demo.

(** Response bodies, already parsed: a list of spaces, a list of pages,
    one page, the JSON object of an error answer, or text that is not
    JSON. *)
Inductive body : Type :=
| SpaceList (l : list models.Space)
| PageList (l : list pageResult)
| PageObject (p : pageDetail)
| ErrorObject (message : string)
| NotJSON.

Definition encodeValues (v : Values) : string :=
  fold_right (fun kv acc => fst kv ++ "=" ++ snd kv ++ "&" ++ acc)%string
             EmptyString v.

(** A JSON object without a [results] member decodes to an empty list of
    results; text that is not JSON does not decode. *)
#[export] Instance externals : Externals := {|
  Body := body;
  SinkState := list string;
  url_Parse := fun s =>
    inr {| Scheme := "https"; Host := s; Path := EmptyString;
           RawQuery := EmptyString |};
  path_Join := fun a b => (a ++ b)%string;
  URL_ResolveReference := fun base ref =>
    {| Scheme := Scheme base; Host := Host base; Path := Path ref;
       RawQuery := RawQuery ref |};
  Values_Encode := encodeValues;
  URL_String := fun u =>
    (Scheme u ++ "://" ++ Host u ++ Path u ++ "?" ++ RawQuery u)%string;
  http_NewRequest := fun method url _ =>
    inr {| Method := method; ReqURL := url; Header := [] |};
  base64_EncodeToString := fun s => s;
  json_Decode_spaces := fun b =>
    match b with
    | SpaceList l => inr {| Results := l; Size := len l; Limit := 25 |}
    | ErrorObject _ => inr {| Results := []; Size := 0; Limit := 0 |}
    | _ => inl "json: cannot unmarshal"
    end;
  json_Decode_pages := fun b =>
    match b with
    | PageList l => inr {| Results := l; Size := len l; Limit := 25 |}
    | ErrorObject _ => inr {| Results := []; Size := 0; Limit := 0 |}
    | _ => inl "json: cannot unmarshal"
    end;
  json_Decode_page := fun b =>
    match b with
    | PageObject p => inr p
    | _ => inl "json: cannot unmarshal"
    end
|}.

Definition contains (sub s : string) : bool :=
  match index 0 sub s with
  | Some _ => true
  | None => false
  end.

Definition record (id : string) : pageResult :=
  {| r_ID := id; r_Title := ("Page " ++ id)%string; r_Type := "page";
     r_Space_Key := "TEAM"; r_Body_Storage_Value := "<p>text</p>";
     r_Version_Number := 1; r_Links_WebUI := ("/display/TEAM/" ++ id)%string |}.

Definition detail (id : string) (ancestors : list string) : pageDetail :=
  {| d_ID := id; d_Title := ("Page " ++ id)%string;
     d_Space_Key := "TEAM"; d_Body_Storage_Value := "<p>text</p>";
     d_Version_Number := 1; d_Links_WebUI := ("/display/TEAM/" ++ id)%string;
     d_Ancestors := ancestors |}.

Definition ok (b : body) : error + Response :=
  inr {| StatusCode := 200; RespBody := b |}.

(** The 30 pages of the space TEAM. *)
Definition teamRecords : list pageResult :=
  map (fun i => record (strconv_Itoa (Z.of_nat i))) (seq 1 30).

(** A server that holds the space TEAM and serves it in slices. *)
Definition teamServer (req : Request) : error + Response :=
  if contains "start=0&" (ReqURL req) then ok (PageList (firstn 25 teamRecords))
  else if contains "start=25&" (ReqURL req)
       then ok (PageList (skipn 25 teamRecords))
       else ok (PageList []).

(** The same space on a server that fails at the second page. *)
Definition failingServer (req : Request) : error + Response :=
  if contains "start=0&" (ReqURL req) then ok (PageList (firstn 25 teamRecords))
  else inl "net/http: timeout awaiting response headers".

(** The page tree R -> [A, B], A -> [A1]. *)
Definition treeServer (req : Request) : error + Response :=
  let u := ReqURL req in
  if contains "/rest/api/content/R/child/page" u
  then ok (PageList [record "A"; record "B"])
  else if contains "/rest/api/content/A/child/page" u
  then ok (PageList [record "A1"])
  else if contains "/child/page" u then ok (PageList [])
  else if contains "/rest/api/content/R?" u then ok (PageObject (detail "R" []))
  else inr {| StatusCode := 404; RespBody := ErrorObject "No content found" |}.

(** An id-graph with a cycle: the children of R are [A], those of A
    are [R]. *)
Definition cyclicServer (req : Request) : error + Response :=
  let u := ReqURL req in
  if contains "/rest/api/content/R/child/page" u
  then ok (PageList [record "A"])
  else if contains "/rest/api/content/A/child/page" u
  then ok (PageList [record "R"])
  else if contains "/child/page" u then ok (PageList [])
  else if contains "/rest/api/content/R?" u then ok (PageObject (detail "R" []))
  else inr {| StatusCode := 404; RespBody := ErrorObject "No content found" |}.

(** A server that answers every request with 404 Not Found. *)
Definition notFound : Response :=
  {| StatusCode := 404; RespBody := ErrorObject "No space with key : NOPE" |}.

Definition notFoundServer (req : Request) : error + Response :=
  inr notFound.

Definition client (net : Request -> error + Response) : api.ConfluenceClient :=
  api.NewConfluenceClient net "wiki.test" "user" "token".

Definition w0 : World :=
  {| requests := []; logs := []; saves := []; sink := [] |}.

(** A handler that keeps the titles it has saved and refuses the page
    with ID 3. *)
Definition picky : output.Handler :=
  {| output.SavePage := fun _ page _ s =>
       if String.eqb (models.ID page) "3"
       then (Some "disk full", s)
       else (None, s ++ [models.Title page]) |}.

(** The request of [GetPages] for the space TEAM at offset [start]. *)
Definition teamRequest (start : string) : Request :=
  {| Method := "GET";
     ReqURL := "https://wiki.test/rest/api/content?spaceKey=TEAM&type=page&expand=body.storage,version,space&start="
               ++ start ++ "&limit=25&";
     Header := [ ("Authorization", "Basic user:token");
                 ("Content-Type", "application/json") ] |}.

Definition page {R : Type} (l : list R) : listing R :=
  {| Results := l; Size := len l; Limit := 25 |}.

(** The request of [GetChildPages] for the children of [id] at offset 0. *)
Definition childRequest (id : string) : Request :=
  {| Method := "GET";
     ReqURL := "https://wiki.test/rest/api/content/" ++ id ++
               "/child/page?expand=body.storage,version,space&start=0&limit=25&";
     Header := [ ("Authorization", "Basic user:token");
                 ("Content-Type", "application/json") ] |}.

(** The tree below R on [treeServer]. *)
Definition treeBelowR : list tree :=
  [ Node (record "A") [ Node (record "A1") [] ]; Node (record "B") [] ].

(** The ids of the cycle on [cyclicServer]. *)
Definition onCycle (id : string) : Prop := id = "R" \/ id = "A".

End demo.

(** ** package db, continued *)

Module db_handle.

(** [CloseDB] closes the database connection.  A nil handle is left
    alone; [db.Close()] of [database/sql] returns nil on a handle that is
    already closed, so that the line the source logs when it fails is
    never written here. *)
Definition CloseDB (d : option db.DB) : option db.DB :=
  match d with
  | Some h => Some {| db.closed := true; db.pages := db.pages h |}
  | None => None
  end.

(** The row [InsertPage] writes for a page. *)
Definition rowOf (page : db.Page) : db.Row :=
  {| db.uid := db.UID page; db.title := db.Title page;
     db.body := db.Body page; db.link := db.Link page |}.

(** [InsertPage] on each page in turn, as the sink does during an
    export; the first error stops the sequence. *)
Fixpoint insertAll (d : db.DB) (ps : list db.Page) : option error * db.DB :=
  match ps with
  | [] => (None, d)
  | page :: rest =>
      match db.InsertPage d page with
      | (Some err, d') => (Some err, d')
      | (None, d') => insertAll d' rest
      end
  end.

Definition hasUID (u : string) (ps : list db.Page) : bool :=
  existsb (fun q => String.eqb (db.UID q) u) ps.

(** The rows of the pages that are the last of their [uid] in [ps], in
    the order of [ps]. *)
Fixpoint lastRows (ps : list db.Page) : list db.Row :=
  match ps with
  | [] => []
  | page :: rest =>
      if hasUID (db.UID page) rest then lastRows rest
      else rowOf page :: lastRows rest
  end.

(** The rows of the table, or none when there is no table. *)
Definition rows (d : db.DB) : list db.Row :=
  match db.pages d with
  | Some l => l
  | None => []
  end.

(** The primary key holds: no two rows have the same [uid]. *)
Definition keyed (d : db.DB) : Prop := NoDup (map db.uid (rows d)).

(** The database file as a handle leaves it. *)
Definition stored (d : db.DB) : db.File := db.Database (db.pages d).

End db_handle.

(** ** package db, the revision without a primary key

    The sources also hold the revision of the package whose table is
    [pages (title VARCHAR, body VARCHAR, link VARCHAR, uid VARCHAR)] and
    whose [InsertPage] is a plain [INSERT]. *)

Module db_plain.

(** [db.Exec("CREATE TABLE IF NOT EXISTS pages (...)")]. *)
Definition Exec_CreateTableIfNotExists (d : db.DB) : option error * db.DB :=
  if db.closed d then (Some "sql: database is closed", d)
  else match db.pages d with
       | Some _ => (None, d)
       | None => (None, {| db.closed := false; db.pages := Some [] |})
       end.

(** [db.Exec("INSERT INTO pages (title, body, link, uid) VALUES
    (?, ?, ?, ?)", ...)]: the table has no key, the row is added. *)
Definition Exec_Insert (d : db.DB) (r : db.Row) : option error * db.DB :=
  if db.closed d then (Some "sql: database is closed", d)
  else match db.pages d with
       | None => (Some "Catalog Error: Table with name pages does not exist!", d)
       | Some l => (None, {| db.closed := false; db.pages := Some (l ++ [r]) |})
       end.

(** [InitDB] initializes the DuckDB database and creates the pages table
    if it doesn't exist. *)
Definition InitDB (dbPath : db.File) : error + db.DB :=
  match db.sql_Open dbPath with
  | inl err => inl ("failed to open database: " ++ err)%string
  | inr d =>
      match Exec_CreateTableIfNotExists d with
      | (Some err, _) => inl ("failed to create table: " ++ err)%string
      | (None, d') => inr d'
      end
  end.

(** [InsertPage] inserts a page into the database. *)
Definition InsertPage (d : db.DB) (page : db.Page) : option error * db.DB :=
  match Exec_Insert d
          {| db.uid := db.UID page; db.title := db.Title page;
             db.body := db.Body page; db.link := db.Link page |} with
  | (Some err, d') => (Some ("failed to insert page: " ++ err)%string, d')
  | (None, d') => (None, d')
  end.

(** [InsertPage] on each page in turn; the first error stops the
    sequence. *)
Fixpoint insertAll (d : db.DB) (ps : list db.Page) : option error * db.DB :=
  match ps with
  | [] => (None, d)
  | page :: rest =>
      match InsertPage d page with
      | (Some err, d') => (Some err, d')
      | (None, d') => insertAll d' rest
      end
  end.

End db_plain.

(** ** package api, continued: attachments *)

Module attachments.

(** Modelled from the spec: the declaration of [models.Attachment] is not
    among the sources; these are the fields [GetAttachments] writes
    ([{id, title, fileName, mediaType, fileSize, downloadURL}]). *)
Record Attachment : Type := {
  ID : string;
  Title : string;
  FileName : string;
  MediaType : string;
  FileSize : Z;
  DownloadURL : string
}.

(** The anonymous struct of one result of the attachment listing, with
    [Metadata.MediaType], [Metadata.Size] and [_links.download]
    flattened. *)
Record attachmentResult : Type := {
  a_ID : string;
  a_Title : string;
  a_Metadata_MediaType : string;
  a_Metadata_Size : Z;
  a_Links_Download : string
}.

(** [json.NewDecoder(resp.Body).Decode(&result)] at the result type of
    [GetAttachments], whose only member is [Results]. *)
Class Decoder `{Ext : Externals} : Type := {
  json_Decode_attachments : Body -> error + list attachmentResult
}.

Section Client.

Context `{Dec : Decoder}.

(** The [models.Attachment] built from one result. *)
Definition attachmentOf (a : attachmentResult) : Attachment :=
  {| ID := a_ID a;
     Title := a_Title a;
     FileName := a_Title a;
     MediaType := a_Metadata_MediaType a;
     FileSize := a_Metadata_Size a;
     DownloadURL := a_Links_Download a |}.

(** [for _, a := range result.Results { attachments = append(...) }]. *)
Fixpoint appendAttachments (results : list attachmentResult)
    (attachments : list Attachment) : list Attachment :=
  match results with
  | [] => attachments
  | a :: rest => appendAttachments rest (attachments ++ [attachmentOf a])
  end.

(** [GetAttachments] retrieves all attachments for a page. *)
Definition GetAttachments (c : api.ConfluenceClient) (pageID : string)
    : M (list Attachment) :=
  let endpoint := ("/rest/api/content/" ++ pageID ++ "/child/attachment")%string in
  let params := Values_Add [] "expand" "version" in
  resp <- api.sendRequest c "GET" endpoint (Some params) None ;;
  result <- ofSum (json_Decode_attachments (RespBody resp)) ;;
  ret (appendAttachments result []).

End Client.

End attachments.

(** ** package config *)

Module config.

(** ConfluenceConfig holds Confluence API connection settings. *)
Record ConfluenceConfig : Type := {
  BaseURL : string;
  APIToken : string;
  Username : string
}.

(** FormatConfig holds settings for markdown formatting. *)
Record FormatConfig : Type := {
  IncludeFrontMatter : bool;
  PreserveLinks : bool
}.

(** ExportConfig holds settings for the export process. *)
Record ExportConfig : Type := {
  SpaceKey : string;
  PageID : string;
  OutputDir : string;
  OutputType : string;
  Recursive : bool;
  IncludeAttachments : bool;
  ConcurrentRequests : Z;
  Format : FormatConfig
}.

(** LoggingConfig holds logging settings. *)
Record LoggingConfig : Type := {
  Level : string;
  File : string
}.

(** Config holds all the configuration for the application. *)
Record Config : Type := {
  Confluence : ConfluenceConfig;
  Export : ExportConfig;
  Logging : LoggingConfig
}.

Definition set_OutputType (e : ExportConfig) (v : string) : ExportConfig :=
  {| SpaceKey := SpaceKey e; PageID := PageID e; OutputDir := OutputDir e;
     OutputType := v; Recursive := Recursive e;
     IncludeAttachments := IncludeAttachments e;
     ConcurrentRequests := ConcurrentRequests e; Format := Format e |}.

Definition set_OutputDir (e : ExportConfig) (v : string) : ExportConfig :=
  {| SpaceKey := SpaceKey e; PageID := PageID e; OutputDir := v;
     OutputType := OutputType e; Recursive := Recursive e;
     IncludeAttachments := IncludeAttachments e;
     ConcurrentRequests := ConcurrentRequests e; Format := Format e |}.

Definition set_Export (c : Config) (e : ExportConfig) : Config :=
  {| Confluence := Confluence c; Export := e; Logging := Logging c |}.

Section Load.

(** [os.ReadFile] and [json.Unmarshal] into a zero [Config]. *)
Variable os_ReadFile : string -> error + string.
Variable json_Unmarshal : string -> error + Config.

(** [LoadConfig] reads the config file from the specified path. *)
Definition LoadConfig (path : string) : error + Config :=
  match os_ReadFile path with
  | inl err => inl err
  | inr file =>
      match json_Unmarshal file with
      | inl err => inl err
      | inr config =>
          (* Set default values *)
          let config :=
            if String.eqb (OutputType (Export config)) EmptyString
            then set_Export config (set_OutputType (Export config) "file")
            else config in
          let config :=
            if String.eqb (OutputDir (Export config)) EmptyString
            then set_Export config (set_OutputDir (Export config) "./output")
            else config in
          inr config
      end
  end.

End Load.

End config.

(** ** package main, continued: the entry point *)

Module driver.

Section Main.

Context `{Ext : Externals}.

(** ProgressTracker keeps track of export progress.  The fields
    [startTime], [lastUpdate] and [lastPagesPerMinute] hold the wall clock
    and a floating point rate that only the progress bar reads; they are
    left out, as the progress bar is. *)
Record ProgressTracker : Type := {
  totalPages : Z;
  processedPages : Z
}.

Definition NewProgressTracker (totalPages : Z) : ProgressTracker :=
  {| totalPages := totalPages; processedPages := 0 |}.

(** [pt.processedPages++]. *)
Definition Update (pt : ProgressTracker) : ProgressTracker :=
  {| totalPages := totalPages pt; processedPages := (processedPages pt + 1)%Z |}.

(** Modelled from the spec: the package [internal/output] is not among
    the sources.  The handler that [output.NewHandler] returns has the
    capability set [{Initialize, SavePage(page, scopeKey), Close}];
    [Initialize] returns an error or nil, the result of the deferred
    [Close] is not looked at. *)
Record Handler : Type := {
  sinkOf : output.Handler;
  Initialize : SinkState -> option error * SinkState;
  Close : SinkState -> option error * SinkState
}.

Definition with_sink (w : World) (s : SinkState) : World :=
  {| requests := requests w; logs := logs w; saves := saves w; sink := s |}.

(** The call [handler.Initialize()]. *)
Definition Handler_Initialize (h : Handler) : M unit :=
  fun w =>
    let '(err, s) := Initialize h (sink w) in
    match err with
    | Some e => (Err e, with_sink w s)
    | None => (Ok tt, with_sink w s)
    end.

(** The call [handler.Close()], deferred: its result is dropped. *)
Definition Handler_Close (h : Handler) : M unit :=
  fun w => let '(_, s) := Close h (sink w) in (Ok tt, with_sink w s).

(** [log.Fatalf]: the line is logged and the process exits with status
    1; deferred calls do not run.  The exit is the outcome [Err]. *)
Definition log_Fatalf {A : Type} (line : string) : M A :=
  fun w => (Err line, logged line w).

(** [x, err := m; if err != nil { log.Fatalf(prefix + err) }]. *)
Definition orFatal {A : Type} (prefix : string) (m : M A) : M A :=
  fun w =>
    match m w with
    | (Err e, w') => log_Fatalf (prefix ++ e) w'
    | r => r
    end.

(** What [main] does not define itself: the file system and the JSON
    parser behind [config.LoadConfig], the outcome of
    [utils.InitLogger] (which creates the log file and redirects the
    logger), [output.NewHandler], and the network. *)
Record Env : Type := {
  os_ReadFile : string -> error + string;
  json_Unmarshal : string -> error + config.Config;
  InitLogger : string -> option error;
  NewHandler : string -> string -> bool -> error + Handler;
  net : Request -> error + Response
}.

(** What [main] prints at the end: where the output is, and the final
    statistics [<label>: <count>]. *)
Record Summary : Type := {
  location : string;
  label : string;
  count : Z
}.

(** The loop of [main] over the pages of a tree:

      for _, page := range pages {
        progress.Update()
        if err := handler.SavePage(client, page, page.SpaceKey); err != nil {
          log.Printf(...); continue
        }
      } *)
Fixpoint savePageTree (client : api.ConfluenceClient) (handler : Handler)
    (pages : list models.Page) (progress : ProgressTracker)
    : M ProgressTracker :=
  match pages with
  | [] => ret progress
  | page :: rest =>
      let progress := Update progress in
      exporter.orElse
        (output.Handler_SavePage (sinkOf handler) client page
           (models.SpaceKey page))
        (fun err =>
           log_Printf ("❌ Failed to save page " ++ models.Title page ++
                       ": " ++ err)) ;;;
      savePageTree client handler rest progress
  end.

(** The loop of [main] over the spaces:

      for _, space := range spaces {
        log.Printf("Starting export of space: %s", space.Key)
        if err := exportSpace(...); err != nil {
          log.Printf("Failed to export space %s: %v", space.Key, err)
          continue
        }
        log.Printf("Successfully exported space: %s", space.Key)
        progress.Update()
      } *)
Fixpoint exportSpaces (fuel : nat) (client : api.ConfluenceClient)
    (handler : Handler) (spaces : list models.Space)
    (progress : ProgressTracker) : M ProgressTracker :=
  match spaces with
  | [] => ret progress
  | space :: rest =>
      log_Printf ("🚀 Starting export of space: " ++ models.Key space) ;;;
      fun w =>
        match exporter.exportSpace fuel client (models.Key space)
                (sinkOf handler) w with
        | (Err err, w') =>
            (log_Printf ("❌ Failed to export space " ++ models.Key space ++
                         ": " ++ err) ;;;
             exportSpaces fuel client handler rest progress) w'
        | (Ok _, w') =>
            (log_Printf ("✅ Successfully exported space: " ++
                         models.Key space) ;;;
             exportSpaces fuel client handler rest (Update progress)) w'
        | (Hang, w') => (Hang, w')
        end
  end.

(** The message on the output location, by output type. *)
Definition locationMessage (cfg : config.Config) : string :=
  let outputType := config.OutputType (config.Export cfg) in
  let outputDir := config.OutputDir (config.Export cfg) in
  if String.eqb outputType "file"
  then "✨ Export completed successfully! Files saved to " ++ outputDir
  else if String.eqb outputType "meilisearch"
  then "✨ Export completed successfully! MeiliSearch JSON saved to " ++
       outputDir ++ "/confluence_pages_meilisearch.json"
  else if String.eqb outputType "singletxt"
  then "✨ Export completed successfully! Single text file saved to " ++
       outputDir ++ "/confluence_export.txt"
  else "✨ Export completed successfully! Data saved to confluence_pages.db".

(** [main].  The value of the flag [-config] is the argument
    [configPath]; what the source prints to standard output at the end is
    the [Summary] returned; the progress bar is left out. *)
Definition main (env : Env) (configPath : string) (fuel : nat) : M Summary :=
  (* Load configuration *)
  match config.LoadConfig (os_ReadFile env) (json_Unmarshal env) configPath with
  | inl err => log_Fatalf ("Failed to load configuration: " ++ err)
  | inr cfg =>
  (* Initialize logging *)
  match InitLogger env (config.File (config.Logging cfg)) with
  | Some err => log_Fatalf ("Failed to initialize logging: " ++ err)
  | None =>
  log_Printf "🚀 Starting Confluence export process..." ;;;
  (* Initialize output handler *)
  match NewHandler env (config.OutputType (config.Export cfg))
          (config.OutputDir (config.Export cfg))
          (config.IncludeAttachments (config.Export cfg)) with
  | inl err => log_Fatalf ("Failed to initialize output handler: " ++ err)
  | inr handler =>
  (* defer handler.Close() *)
  orFatal "Failed to initialize output: " (Handler_Initialize handler) ;;;
  (* Initialize Confluence client *)
  let client :=
    api.NewConfluenceClient (net env)
      (config.BaseURL (config.Confluence cfg))
      (config.Username (config.Confluence cfg))
      (config.APIToken (config.Confluence cfg)) in
  let pageID := config.PageID (config.Export cfg) in
  let spaceKey := config.SpaceKey (config.Export cfg) in
  stats <-
    (if negb (String.eqb pageID EmptyString) then
       log_Printf ("📄 Root page ID provided (" ++ pageID ++
                   "), exporting page tree...") ;;;
       pages <- orFatal "Failed to fetch page tree: "
                  (exporter.fetchPageTree fuel client pageID) ;;
       match pages with
       | [] => log_Fatalf ("No pages found for root page ID " ++ pageID)
       | rootPage :: _ =>
           log_Printf ("📚 Found " ++ strconv_Itoa (len pages) ++
                       " pages to export under root page " ++
                       models.Title rootPage ++ " (" ++ pageID ++ ")") ;;;
           progress <- savePageTree client handler pages
                         (NewProgressTracker (len pages)) ;;
           log_Printf ("✅ Successfully exported page tree rooted at " ++
                       models.Title rootPage ++ " (" ++ pageID ++ ")") ;;;
           ret ("Total pages processed", progress)
       end
     else
       (* Get all spaces if no specific space key is provided *)
       spaces <-
         (if String.eqb spaceKey EmptyString then
            log_Printf "🌍 No space key provided, fetching all accessible spaces..." ;;;
            spaces <- orFatal "Failed to fetch spaces: "
                        (api.GetSpaces fuel client) ;;
            log_Printf ("📚 Found " ++ strconv_Itoa (len spaces) ++
                        " spaces to export") ;;;
            ret spaces
          else
            (* Create a single space entry for the specified space *)
            ret [ {| models.Key := spaceKey |} ]) ;;
       (* Export each space *)
       progress <- exportSpaces fuel client handler spaces
                     (NewProgressTracker (len spaces)) ;;
       ret ("Total spaces processed", progress)) ;;
  log_Printf "🎉 Export completed successfully!" ;;;
  Handler_Close handler ;;;
  ret {| location := locationMessage cfg;
         label := fst stats;
         count := processedPages (snd stats) |}
  end end end.

End Main.

End driver.

(** ** Definitions used to state the further properties *)

(** Every page of [l] comes after a page that is its parent: its
    [ParentID] is in [seen] or is the [ID] of a page before it in [l]. *)
Definition parented (seen : list string) (l : list models.Page) : Prop :=
  forall before page after,
    l = before ++ page :: after ->
    In (models.ParentID page) (seen ++ map models.ID before).

(** The same, read from the head of the list. *)
Fixpoint parentedFrom (seen : list string) (l : list models.Page) : Prop :=
  match l with
  | [] => True
  | page :: rest =>
      In (models.ParentID page) seen /\
      parentedFrom (seen ++ [models.ID page]) rest
  end.


(** A computation that writes nothing but the list of requests. *)
Definition framed `{Ext : Externals} {A : Type} (m : M A) : Prop :=
  forall w r w',
    m w = (r, w') ->
    logs w' = logs w /\ saves w' = saves w /\ sink w' = sink w.


(** The number of requests sent between two worlds. *)
Definition requestsBetween `{Ext : Externals} (w w' : World) : Z :=
  (len (requests w') - len (requests w))%Z.

(** The client [main] creates from the configuration. *)
Definition clientOf `{Ext : Externals} (env : driver.Env)
    (cfg : config.Config) : api.ConfluenceClient :=
  api.NewConfluenceClient (driver.net env)
    (config.BaseURL (config.Confluence cfg))
    (config.Username (config.Confluence cfg))
    (config.APIToken (config.Confluence cfg)).

(** The start of [main] goes through: the configuration [cfg] is loaded,
    the logger is set up, [NewHandler] returns [handler], and
    [Initialize] takes the sink from [s0] to [s1] without error. *)
Definition ready `{Ext : Externals} (env : driver.Env) (configPath : string)
    (cfg : config.Config) (handler : driver.Handler)
    (s0 s1 : SinkState) : Prop :=
  config.LoadConfig (driver.os_ReadFile env) (driver.json_Unmarshal env)
    configPath = inr cfg /\
  driver.InitLogger env (config.File (config.Logging cfg)) = None /\
  driver.NewHandler env (config.OutputType (config.Export cfg))
    (config.OutputDir (config.Export cfg))
    (config.IncludeAttachments (config.Export cfg)) = inr handler /\
  driver.Initialize handler s0 = (None, s1).

(** One save call per page of a tree, under the space key of the page. *)
Definition treeSaves (pages : list models.Page) : list SaveCall :=
  map (fun page => {| savedPage := page;
                      savedScope := models.SpaceKey page |}) pages.

(** A handful of configurations and answers for the scenarios. *)
Module fixtures.

#[local] Existing Instance demo.externals.

Definition exportConfig (outputType outputDir : string) : config.Config :=
  {| config.Confluence :=
       {| config.BaseURL := "wiki.test"; config.APIToken := "token";
          config.Username := "user" |};
     config.Export :=
       {| config.SpaceKey := "TEAM"; config.PageID := EmptyString;
          config.OutputDir := outputDir; config.OutputType := outputType;
          config.Recursive := true; config.IncludeAttachments := false;
          config.ConcurrentRequests := 5;
          config.Format := {| config.IncludeFrontMatter := true;
                              config.PreserveLinks := true |} |};
     config.Logging :=
       {| config.Level := "info"; config.File := "confluence-export.log" |} |}.

(** A file system with one configuration file, whose content is its own
    name, and a parser that knows two contents. *)
Definition readFile (path : string) : error + string :=
  if String.eqb path "missing.json"
  then inl "open missing.json: no such file or directory"
  else inr path.

(** The same configuration for the page tree below [pageID]. *)
Definition treeConfig (pageID : string) : config.Config :=
  config.set_Export (exportConfig "db" "/srv/out")
    {| config.SpaceKey := "TEAM"; config.PageID := pageID;
       config.OutputDir := "/srv/out"; config.OutputType := "db";
       config.Recursive := true; config.IncludeAttachments := false;
       config.ConcurrentRequests := 5;
       config.Format := {| config.IncludeFrontMatter := true;
                           config.PreserveLinks := true |} |}.

(** The same configuration without space key and page id. *)
Definition allConfig : config.Config :=
  config.set_Export (exportConfig "db" "/srv/out")
    {| config.SpaceKey := EmptyString; config.PageID := EmptyString;
       config.OutputDir := "/srv/out"; config.OutputType := "db";
       config.Recursive := true; config.IncludeAttachments := false;
       config.ConcurrentRequests := 5;
       config.Format := {| config.IncludeFrontMatter := true;
                           config.PreserveLinks := true |} |}.

Definition unmarshal (file : string) : error + config.Config :=
  if String.eqb file "bare.json" then inr (exportConfig EmptyString EmptyString)
  else if String.eqb file "db.json" then inr (exportConfig "db" "/srv/out")
  else if String.eqb file "tree.json" then inr (treeConfig "R")
  else if String.eqb file "all.json" then inr allConfig
  else inl "invalid character 'x' looking for beginning of value".

(** A server with the spaces GONE and TEAM: the pages of GONE cannot be
    listed, TEAM has three pages. *)
Definition spacesServer (req : Request) : error + Response :=
  let u := ReqURL req in
  if demo.contains "/rest/api/space?" u
  then demo.ok (demo.SpaceList [ {| models.Key := "GONE" |};
                                 {| models.Key := "TEAM" |} ])
  else if demo.contains "spaceKey=TEAM&" u
  then demo.ok (demo.PageList (firstn 3 demo.teamRecords))
  else inl "net/http: timeout awaiting response headers".

(** A handler over [demo.picky] that marks the sink when it is
    initialized and when it is closed. *)
Definition marking : driver.Handler :=
  {| driver.sinkOf := demo.picky;
     driver.Initialize := fun s => (None, s ++ ["<initialized>"]);
     driver.Close := fun s => (None, s ++ ["<closed>"]) |}.

Definition env (server : Request -> error + Response) : driver.Env :=
  {| driver.os_ReadFile := readFile;
     driver.json_Unmarshal := unmarshal;
     driver.InitLogger := fun _ => None;
     driver.NewHandler := fun _ _ _ => inr marking;
     driver.net := server |}.

(** The page tree R -> [A, B], A -> [A1], B -> [B1], on a server that
    answers the child listing of B1 with an error page that is not
    JSON. *)
Definition brokenTreeServer (req : Request) : error + Response :=
  let u := ReqURL req in
  if demo.contains "/rest/api/content/R/child/page" u
  then demo.ok (demo.PageList [demo.record "A"; demo.record "B"])
  else if demo.contains "/rest/api/content/A/child/page" u
  then demo.ok (demo.PageList [demo.record "A1"])
  else if demo.contains "/rest/api/content/B/child/page" u
  then demo.ok (demo.PageList [demo.record "B1"])
  else if demo.contains "/rest/api/content/B1/child/page" u
  then inr {| StatusCode := 500; RespBody := demo.NotJSON |}
  else if demo.contains "/child/page" u then demo.ok (demo.PageList [])
  else if demo.contains "/rest/api/content/R?" u
  then demo.ok (demo.PageObject (demo.detail "R" ["HOME"; "P"]))
  else inr {| StatusCode := 404;
              RespBody := demo.ErrorObject "No content found" |}.

(** A server that answers every request with three results. *)
Definition attachmentServer (req : Request) : error + Response :=
  demo.ok (demo.PageList (firstn 3 demo.teamRecords)).

(** The results of a listing read as attachments: the members [id] and
    [title] are there, the others are missing and stay zero. *)
#[export] Instance decoder : attachments.Decoder (Ext := demo.externals) := {|
  attachments.json_Decode_attachments := fun b =>
    match b with
    | demo.PageList l =>
        inr (map (fun r => {| attachments.a_ID := r_ID r;
                              attachments.a_Title := r_Title r;
                              attachments.a_Metadata_MediaType := EmptyString;
                              attachments.a_Metadata_Size := 0;
                              attachments.a_Links_Download := EmptyString |}) l)
    | demo.ErrorObject _ => inr []
    | _ => inl "json: cannot unmarshal"
    end
|}.

End fixtures.

(** * Properties *)

(** ** getSafeFilename *)

Lemma isHostile_In (b : ascii) : isHostile b = true <-> In b hostile.
Proof.
  unfold isHostile. rewrite existsb_exists. split.
  - intros [x [Hin Heq]]. apply Ascii.eqb_eq in Heq. now subst.
  - intros Hin. exists b. split; [assumption | apply Ascii.eqb_refl].
Qed.

(* What the replacer of [getSafeFilename] does to one byte. *)
Lemma getSafeFilename_cons (b : ascii) (s : string) :
  exporter.getSafeFilename (String b s)
  = String (safeByte b) (exporter.getSafeFilename s).
Proof.
  unfold exporter.getSafeFilename. cbn [Replacer_Replace]. f_equal.
  destruct b as [[] [] [] [] [] [] [] []]; reflexivity.
Qed.

Lemma safeByte_not_hostile (b : ascii) : isHostile (safeByte b) = false.
Proof. destruct b as [[] [] [] [] [] [] [] []]; reflexivity. Qed.

Lemma safeByte_idempotent (b : ascii) : safeByte (safeByte b) = safeByte b.
Proof.
  unfold safeByte at 1. now rewrite safeByte_not_hostile.
Qed.

Lemma getSafeFilename_get (s : string) (i : nat) :
  String.get i (exporter.getSafeFilename s)
  = option_map safeByte (String.get i s).
Proof.
  revert i. induction s as [| b s IH]; intros i.
  - reflexivity.
  - rewrite getSafeFilename_cons. destruct i as [| i]; cbn; [reflexivity | apply IH].
Qed.

(** C8.  For every title, the name produced by [getSafeFilename] has the
    length of the title, contains none of the bytes
    [/ \ : * ? double-quote < > |] or space, and carries at every
    position where the title has another byte that very byte (a hostile
    byte is replaced in place, the space by an underscore and the others
    by a dash). *)
Theorem getSafeFilename_removes_hostile_bytes (title : string) :
  String.length (exporter.getSafeFilename title) = String.length title /\
  (forall i c, String.get i (exporter.getSafeFilename title) = Some c ->
               ~ In c hostile) /\
  (forall i c, String.get i title = Some c -> ~ In c hostile ->
               String.get i (exporter.getSafeFilename title) = Some c) /\
  (forall i c, String.get i title = Some c -> In c hostile ->
               String.get i (exporter.getSafeFilename title)
               = Some (if Ascii.eqb c " " then "_" else "-")%char).
Proof.
  split; [| split; [| split]].
  - induction title as [| b s IH]; [reflexivity |].
    rewrite getSafeFilename_cons. cbn. now rewrite IH.
  - intros i c Hget Hin. rewrite getSafeFilename_get in Hget.
    destruct (String.get i title) as [b |]; [| discriminate].
    injection Hget as <-. apply isHostile_In in Hin.
    now rewrite safeByte_not_hostile in Hin.
  - intros i c Hget Hout. rewrite getSafeFilename_get, Hget. cbn.
    unfold safeByte. destruct (isHostile c) eqn:Hc; [| reflexivity].
    exfalso. apply Hout. now apply isHostile_In.
  - intros i c Hget Hin. rewrite getSafeFilename_get, Hget. cbn.
    unfold safeByte. apply isHostile_In in Hin. now rewrite Hin.
Qed.

Lemma getSafeFilename_removes_hostile_bytes_witness :
  String.get 2 (exporter.getSafeFilename "Q3: a/b") = Some "-"%char /\
  String.get 3 (exporter.getSafeFilename "Q3: a/b") = Some "_"%char /\
  String.get 4 (exporter.getSafeFilename "Q3: a/b") = Some "a"%char /\
  ~ In "-"%char hostile.
Proof.
  destruct (getSafeFilename_removes_hostile_bytes "Q3: a/b")
    as [_ [Hclean [Hkeep Hrepl]]].
  split; [| split; [| split]].
  - apply (Hrepl 2 ":"%char); [reflexivity | cbn; tauto].
  - apply (Hrepl 3 " "%char); [reflexivity | cbn; tauto].
  - apply (Hkeep 4 "a"%char); [reflexivity |].
    intros Hin. apply isHostile_In in Hin. discriminate Hin.
  - apply (Hclean 2). apply (Hrepl 2 ":"%char); [reflexivity | cbn; tauto].
Defined.

(** C10.  [getSafeFilename] is idempotent: the dash and the underscore it
    writes are not among the bytes it replaces. *)
Theorem getSafeFilename_idempotent (s : string) :
  exporter.getSafeFilename (exporter.getSafeFilename s)
  = exporter.getSafeFilename s.
Proof.
  induction s as [| b s IH]; [reflexivity |].
  rewrite !getSafeFilename_cons. now rewrite safeByte_idempotent, IH.
Qed.

(** ** The embedded store *)

Lemma filter_other_uid (u : string) (rows : list db.Row) :
  filter (fun x => String.eqb (db.uid x) u)
         (filter (fun x => negb (String.eqb (db.uid x) u)) rows) = [].
Proof.
  induction rows as [| r rows IH]; [reflexivity |].
  cbn. destruct (String.eqb (db.uid r) u) eqn:E; cbn; [assumption |].
  now rewrite E.
Qed.

Lemma InsertPage_open (d : db.DB) (rows : list db.Row) (page : db.Page) :
  db.closed d = false -> db.pages d = Some rows ->
  db.InsertPage d page
  = (None,
     {| db.closed := false;
        db.pages :=
          Some (filter (fun x => negb (String.eqb (db.uid x) (db.UID page))) rows
                ++ [{| db.uid := db.UID page; db.title := db.Title page;
                       db.body := db.Body page; db.link := db.Link page |}]) |}).
Proof.
  intros Hc Hp. unfold db.InsertPage, db.Exec_InsertOrReplace.
  now rewrite Hc, Hp.
Qed.

Lemma InitDB_open (f : db.File) (d : db.DB) :
  db.InitDB f = inr d -> db.closed d = false /\ exists rows, db.pages d = Some rows.
Proof.
  unfold db.InitDB, db.sql_Open, db.Exec_CreateTableIfNotExists.
  destruct f as [reason | [rows |]]; cbn; intros H; try discriminate;
    injection H as <-; cbn; eauto.
Qed.

(** C4.  On a database opened by [InitDB], inserting a page and then a
    page with the same [uid] succeeds both times and leaves exactly one
    row with that [uid]: the row of the second page, with its body. *)
Theorem InsertPage_twice_keeps_second (f : db.File) (d : db.DB)
    (first second : db.Page) :
  db.InitDB f = inr d ->
  db.UID first = db.UID second ->
  exists d1 d2,
    db.InsertPage d first = (None, d1) /\
    db.InsertPage d1 second = (None, d2) /\
    db.rowsWithUID d2 (db.UID first)
    = [{| db.uid := db.UID second; db.title := db.Title second;
          db.body := db.Body second; db.link := db.Link second |}].
Proof.
  intros Hinit Huid. destruct (InitDB_open _ _ Hinit) as [Hc [rows Hp]].
  eexists. eexists. split; [apply (InsertPage_open _ _ _ Hc Hp) |].
  split; [apply InsertPage_open; reflexivity |].
  unfold db.rowsWithUID. cbn [db.pages]. rewrite Huid.
  rewrite filter_app, filter_other_uid. cbn. now rewrite String.eqb_refl.
Qed.

Lemma InsertPage_twice_keeps_second_witness :
  exists d1 d2,
    db.InsertPage {| db.closed := false; db.pages := Some [] |}
      {| db.Title := "Home"; db.Body := "draft"; db.Link := "/home"; db.UID := "u1" |}
    = (None, d1) /\
    db.InsertPage d1
      {| db.Title := "Home"; db.Body := "final"; db.Link := "/home"; db.UID := "u1" |}
    = (None, d2) /\
    db.rowsWithUID d2 "u1"
    = [{| db.uid := "u1"; db.title := "Home"; db.body := "final"; db.link := "/home" |}].
Proof.
  apply (InsertPage_twice_keeps_second (db.Database None)
           {| db.closed := false; db.pages := Some [] |}
           {| db.Title := "Home"; db.Body := "draft"; db.Link := "/home"; db.UID := "u1" |}
           {| db.Title := "Home"; db.Body := "final"; db.Link := "/home"; db.UID := "u1" |});
    reflexivity.
Defined.

(** ** The transport *)

Section Transport.

Context `{Ext : Externals}.

Lemma sendRequest_eq (c : api.ConfluenceClient) (method endpoint : string)
    (params : option Values) (body : option Body) (w : World) :
  api.sendRequest c method endpoint params body w
  = match buildRequest c method endpoint params body with
    | inl err => (Err err, w)
    | inr req =>
        (match Do (api.HTTPClient c) req with
         | inl err => Err err
         | inr resp => Ok resp
         end, sent req w)
    end.
Proof.
  unfold api.sendRequest, buildRequest.
  destruct (url_Parse (api.BaseURL c)) as [err | baseURL]; [reflexivity |].
  cbv zeta.
  destruct (http_NewRequest method _ body) as [err | req]; [reflexivity |].
  unfold http_Client_Do.
  destruct (Do (api.HTTPClient c) _); reflexivity.
Qed.

(** C5, as the code has it.  [sendRequest] returns an error in three
    cases only: the base URL does not parse or the request cannot be
    created (nothing is sent), or the HTTP client reports that the
    exchange failed.  Every response the client hands back is returned to
    the caller as a successful result, unchanged and with a nil error,
    whatever its status code: there is no check of the status. *)
Theorem sendRequest_returns_every_response (c : api.ConfluenceClient)
    (method endpoint : string) (params : option Values) (body : option Body)
    (w : World) :
  (forall err,
      buildRequest c method endpoint params body = inl err ->
      api.sendRequest c method endpoint params body w = (Err err, w)) /\
  (forall req err,
      buildRequest c method endpoint params body = inr req ->
      Do (api.HTTPClient c) req = inl err ->
      api.sendRequest c method endpoint params body w = (Err err, sent req w)) /\
  (forall req resp,
      buildRequest c method endpoint params body = inr req ->
      Do (api.HTTPClient c) req = inr resp ->
      api.sendRequest c method endpoint params body w = (Ok resp, sent req w)).
Proof.
  rewrite sendRequest_eq. repeat split.
  - intros err ->. reflexivity.
  - intros req err -> ->. reflexivity.
  - intros req resp -> ->. reflexivity.
Qed.

End Transport.

(* C5 does not hold as stated: a 404 answer comes back as a success. *)
Lemma sendRequest_non_2xx_is_success :
  ~ (forall c method endpoint params body w resp w',
        api.sendRequest (Ext := demo.externals) c method endpoint params body w
        = (Ok resp, w') ->
        is2xx resp = true).
Proof.
  intros H.
  specialize (H (demo.client demo.notFoundServer) "GET" "/rest/api/space"
                None None demo.w0 demo.notFound _ eq_refl).
  discriminate H.
Qed.

Lemma sendRequest_returns_every_response_witness :
  (exists req,
      api.sendRequest (demo.client demo.notFoundServer) "GET" "/rest/api/space"
        None None demo.w0
      = (Ok demo.notFound, sent req demo.w0) /\
      is2xx demo.notFound = false) /\
  (exists req,
      api.sendRequest (demo.client demo.failingServer) "GET" "/rest/api/space"
        (Some [("start", "25")]) None demo.w0
      = (Err "net/http: timeout awaiting response headers", sent req demo.w0)).
Proof.
  split.
  - eexists. split; [| reflexivity].
    apply (sendRequest_returns_every_response
             (demo.client demo.notFoundServer) "GET" "/rest/api/space"
             None None demo.w0); reflexivity.
  - eexists.
    apply (sendRequest_returns_every_response
             (demo.client demo.failingServer) "GET" "/rest/api/space"
             (Some [("start", "25")]) None demo.w0); reflexivity.
Defined.

(** ** The paginated listings *)

Section Pagination.

Context `{Ext : Externals}.

Lemma fetchWith_exchange {R : Type} (c : api.ConfluenceClient)
    (endpoint : string) (params : Values) (decode : Body -> error + R)
    (req : Request) (page : R) (w : World) :
  exchange c endpoint params decode req page ->
  fetchWith c endpoint params decode w = (Ok page, sent req w).
Proof.
  intros [Hreq [resp [Hdo Hdec]]].
  unfold fetchWith, bind. rewrite sendRequest_eq, Hreq, Hdo, Hdec.
  reflexivity.
Qed.

Lemma fetchWith_failsWith {R : Type} (c : api.ConfluenceClient)
    (endpoint : string) (params : Values) (decode : Body -> error + R)
    (e : error) (w : World) :
  failsWith c endpoint params decode e ->
  fst (fetchWith c endpoint params decode w) = Err e.
Proof.
  unfold fetchWith, bind. rewrite sendRequest_eq.
  intros [Hreq | [req [Hreq [Hdo | [resp [Hdo Hdec]]]]]]; rewrite Hreq.
  - reflexivity.
  - now rewrite Hdo.
  - now rewrite Hdo, Hdec.
Qed.

Lemma sentAll_cons (req : Request) (reqs : list Request) (w : World) :
  sentAll (req :: reqs) w = sentAll reqs (sent req w).
Proof. reflexivity. Qed.

Lemma requests_sentAll (reqs : list Request) (w : World) :
  requests (sentAll reqs w) = requests w ++ reqs.
Proof.
  revert w. induction reqs as [| req reqs IH]; intros w; cbn.
  - now rewrite app_nil_r.
  - change (requests (sentAll reqs (sent req w)) = requests w ++ req :: reqs).
    rewrite IH. cbn. now rewrite <- app_assoc.
Qed.

(* The loop, when the pages arrive as [full ++ [last]]. *)
Lemma pageLoop_collects {R A : Type} (limit : Z) (fetch : Z -> M (listing R))
    (conv : R -> A) (full : list (listing R)) (last : listing R) :
  forall (reqs : list Request) (start : Z) (all : list A) (fuel : nat) (w : World),
    length reqs = S (length full) ->
    Forall (fun page => (limit <= len (Results page))%Z) full ->
    (len (Results last) < limit)%Z ->
    (forall i req page,
        nth_error reqs i = Some req ->
        nth_error (full ++ [last]) i = Some page ->
        forall w', fetch (start + limit * Z.of_nat i)%Z w' = (Ok page, sent req w')) ->
    length full < fuel ->
    api.pageLoop fuel limit fetch conv start all w
    = (Ok (all ++ map conv (records (full ++ [last]))), sentAll reqs w).
Proof.
  induction full as [| page full IH];
    intros reqs start all fuel w Hlen Hfull Hshort Hfetch Hfuel.
  - destruct reqs as [| req [| ? ?]]; try discriminate Hlen.
    destruct fuel as [| fuel]; [lia |].
    cbn [api.pageLoop]. unfold bind.
    specialize (Hfetch 0 req last eq_refl eq_refl w).
    replace (start + limit * Z.of_nat 0)%Z with start in Hfetch by lia.
    rewrite Hfetch.
    apply Z.ltb_lt in Hshort. rewrite Hshort.
    unfold records. cbn. now rewrite app_nil_r.
  - destruct reqs as [| req reqs]; [discriminate Hlen |].
    destruct fuel as [| fuel]; [lia |].
    cbn [api.pageLoop]. unfold bind.
    pose proof (Hfetch 0 req page eq_refl eq_refl w) as H0.
    replace (start + limit * Z.of_nat 0)%Z with start in H0 by lia.
    rewrite H0.
    inversion Hfull as [| ? ? Hpage Hrest]; subst.
    assert (Hge : (len (Results page) <? limit)%Z = false)
      by (apply Z.ltb_ge; exact Hpage).
    rewrite Hge.
    rewrite (IH reqs (start + limit)%Z _ fuel (sent req w)).
    + rewrite sentAll_cons. f_equal. f_equal.
      unfold records. cbn. now rewrite map_app, app_assoc.
    + cbn in Hlen. lia.
    + exact Hrest.
    + exact Hshort.
    + intros i req' page' Hr Hp w'.
      specialize (Hfetch (S i) req' page' Hr Hp w').
      replace (start + limit * Z.of_nat (S i))%Z
        with (start + limit + limit * Z.of_nat i)%Z in Hfetch by lia.
      exact Hfetch.
    + cbn in Hfuel. lia.
Qed.

(* The loop, when the request after the pages [full] fails. *)
Lemma pageLoop_aborts {R A : Type} (limit : Z) (fetch : Z -> M (listing R))
    (conv : R -> A) (full : list (listing R)) (e : error) :
  forall (reqs : list Request) (start : Z) (all : list A) (fuel : nat) (w : World),
    length reqs = length full ->
    Forall (fun page => (limit <= len (Results page))%Z) full ->
    (forall i req page,
        nth_error reqs i = Some req ->
        nth_error full i = Some page ->
        forall w', fetch (start + limit * Z.of_nat i)%Z w' = (Ok page, sent req w')) ->
    (forall w', fst (fetch (start + limit * Z.of_nat (length full))%Z w') = Err e) ->
    length full < fuel ->
    fst (api.pageLoop fuel limit fetch conv start all w) = Err e.
Proof.
  induction full as [| page full IH];
    intros reqs start all fuel w Hlen Hfull Hfetch Hfail Hfuel.
  - destruct fuel as [| fuel]; [lia |].
    cbn [api.pageLoop]. unfold bind.
    specialize (Hfail w).
    replace (start + limit * Z.of_nat (length (@nil (listing R))))%Z
      with start in Hfail by (cbn; lia).
    destruct (fetch start w) as [[page | e' |] w1]; cbn in Hfail;
      try discriminate Hfail.
    injection Hfail as ->. reflexivity.
  - destruct reqs as [| req reqs]; [discriminate Hlen |].
    destruct fuel as [| fuel]; [lia |].
    cbn [api.pageLoop]. unfold bind.
    pose proof (Hfetch 0 req page eq_refl eq_refl w) as H0.
    replace (start + limit * Z.of_nat 0)%Z with start in H0 by lia.
    rewrite H0.
    inversion Hfull as [| ? ? Hpage Hrest]; subst.
    assert (Hge : (len (Results page) <? limit)%Z = false)
      by (apply Z.ltb_ge; exact Hpage).
    rewrite Hge.
    apply (IH reqs).
    + cbn in Hlen. lia.
    + exact Hrest.
    + intros i req' page' Hr Hp w'.
      specialize (Hfetch (S i) req' page' Hr Hp w').
      replace (start + limit * Z.of_nat (S i))%Z
        with (start + limit + limit * Z.of_nat i)%Z in Hfetch by lia.
      exact Hfetch.
    + intros w'. specialize (Hfail w').
      replace (start + limit * Z.of_nat (length (page :: full)))%Z
        with (start + limit + limit * Z.of_nat (length full))%Z in Hfail
        by (cbn [length]; lia).
      exact Hfail.
    + cbn in Hfuel. lia.
Qed.

(* The offset never exceeds the number of records collected. *)
Lemma offset_le_collected {R : Type} (limit : Z) (full : list (listing R)) :
  Forall (fun page => (limit <= len (Results page))%Z) full ->
  (limit * Z.of_nat (length full) <= len (records full))%Z.
Proof.
  induction 1 as [| page full Hpage _ IH]; [cbn; lia |].
  unfold records, len in *. cbn [flat_map length].
  rewrite length_app. lia.
Qed.

Lemma fetchSpaces_eq (c : api.ConfluenceClient) (limit start : Z) :
  api.fetchSpaces c limit start
  = fetchWith c "/rest/api/space" (spacesParams limit start) json_Decode_spaces.
Proof. reflexivity. Qed.

Lemma fetchPages_eq (c : api.ConfluenceClient) (spaceKey : string)
    (limit start : Z) :
  api.fetchPages c spaceKey limit start
  = fetchWith c "/rest/api/content" (pagesParams spaceKey limit start)
      json_Decode_pages.
Proof. reflexivity. Qed.

Lemma fetchChildPages_eq (c : api.ConfluenceClient) (parentPageID : string)
    (limit start : Z) :
  api.fetchChildPages c parentPageID limit start
  = fetchWith c (childEndpoint parentPageID) (childParams limit start)
      json_Decode_pages.
Proof. reflexivity. Qed.

(* A listing whose requests are those of [fetchWith]. *)
Lemma listing_collects {R A : Type} (c : api.ConfluenceClient)
    (endpoint : string) (params : Z -> Values)
    (decode : Body -> error + listing R) (limit : Z)
    (fetch : Z -> M (listing R)) (conv : R -> A)
    (full : list (listing R)) (last : listing R) (reqs : list Request)
    (fuel : nat) (w : World) :
  (forall start, fetch start = fetchWith c endpoint (params start) decode) ->
  delivers c endpoint params decode limit full last reqs ->
  length full < fuel ->
  collects (api.pageLoop fuel limit fetch conv 0 []) conv full last reqs w.
Proof.
  intros Hfetch [Hlen [Hfull [Hshort Hex]]] Hfuel. split; [| split].
  - rewrite (pageLoop_collects limit fetch conv full last reqs); auto.
    intros i req page Hr Hp w'. rewrite Hfetch.
    apply fetchWith_exchange. now apply Hex.
  - rewrite length_map. apply length_flat_map.
  - exact Hlen.
Qed.

(** C1.  [GetSpaces], [GetPages] and [GetChildPages]: when the server
    delivers the collection as pages of at least 25 records followed by a
    page of fewer than 25, the request number [i] being the one for offset
    [25 * i], the loop ends after the short page, as soon as the bound on
    iterations exceeds the number of full pages.  It has then sent one
    request per page and no other, and it returns the records of all the
    pages in response order: as many as the pages hold together. *)
Theorem listings_stop_at_first_short_page (c : api.ConfluenceClient)
    (spaceKey parentPageID : string) (fuel : nat) (w : World) :
  (forall full last reqs,
      delivers c "/rest/api/space" (spacesParams 25) json_Decode_spaces 25
        full last reqs ->
      length full < fuel ->
      collects (api.GetSpaces fuel c) (fun s => s) full last reqs w) /\
  (forall full last reqs,
      delivers c "/rest/api/content" (pagesParams spaceKey 25)
        json_Decode_pages 25 full last reqs ->
      length full < fuel ->
      collects (api.GetPages fuel c spaceKey) api.spacePage full last reqs w) /\
  (forall full last reqs,
      delivers c (childEndpoint parentPageID) (childParams 25)
        json_Decode_pages 25 full last reqs ->
      length full < fuel ->
      collects (api.GetChildPages fuel c parentPageID)
        (api.childPage parentPageID) full last reqs w).
Proof.
  split; [| split]; intros full last reqs Hd Hfuel.
  - apply (listing_collects c _ _ _ _ _ _ full last reqs fuel w
             (fetchSpaces_eq c 25) Hd Hfuel).
  - apply (listing_collects c _ _ _ _ _ _ full last reqs fuel w
             (fetchPages_eq c spaceKey 25) Hd Hfuel).
  - apply (listing_collects c _ _ _ _ _ _ full last reqs fuel w
             (fetchChildPages_eq c parentPageID 25) Hd Hfuel).
Qed.

(* A listing whose request after the pages [full] fails. *)
Lemma listing_aborts {R A : Type} (c : api.ConfluenceClient)
    (endpoint : string) (params : Z -> Values)
    (decode : Body -> error + listing R) (limit : Z)
    (fetch : Z -> M (listing R)) (conv : R -> A)
    (full : list (listing R)) (reqs : list Request) (e : error)
    (fuel : nat) (w : World) :
  (forall start, fetch start = fetchWith c endpoint (params start) decode) ->
  breaksAfter c endpoint params decode limit full reqs e ->
  length full < fuel ->
  fst (api.pageLoop fuel limit fetch conv 0 [] w) = Err e.
Proof.
  intros Hfetch [Hlen [Hfull [Hex Hfail]]] Hfuel.
  apply (pageLoop_aborts limit fetch conv full e reqs); auto.
  - intros i req page Hr Hp w'. rewrite Hfetch.
    apply fetchWith_exchange. now apply Hex.
  - intros w'. rewrite Hfetch. now apply fetchWith_failsWith.
Qed.

(** C6.  [GetSpaces], [GetPages] and [GetChildPages]: when the server has
    delivered any number of full pages and the next request fails with
    [e] (the request cannot be built, the exchange fails, or the body does
    not decode), the call returns [e] and none of the records accumulated
    from the pages before. *)
Theorem listings_are_all_or_nothing (c : api.ConfluenceClient)
    (spaceKey parentPageID : string) (fuel : nat) (w : World) (e : error) :
  (forall full reqs,
      breaksAfter c "/rest/api/space" (spacesParams 25) json_Decode_spaces 25
        full reqs e ->
      length full < fuel ->
      fst (api.GetSpaces fuel c w) = Err e) /\
  (forall full reqs,
      breaksAfter c "/rest/api/content" (pagesParams spaceKey 25)
        json_Decode_pages 25 full reqs e ->
      length full < fuel ->
      fst (api.GetPages fuel c spaceKey w) = Err e) /\
  (forall full reqs,
      breaksAfter c (childEndpoint parentPageID) (childParams 25)
        json_Decode_pages 25 full reqs e ->
      length full < fuel ->
      fst (api.GetChildPages fuel c parentPageID w) = Err e).
Proof.
  split; [| split]; intros full reqs Hb Hfuel.
  - apply (listing_aborts c _ _ _ _ _ _ full reqs e fuel w
             (fetchSpaces_eq c 25) Hb Hfuel).
  - apply (listing_aborts c _ _ _ _ _ _ full reqs e fuel w
             (fetchPages_eq c spaceKey 25) Hb Hfuel).
  - apply (listing_aborts c _ _ _ _ _ _ full reqs e fuel w
             (fetchChildPages_eq c parentPageID 25) Hb Hfuel).
Qed.

(* Whatever holds of the records converted holds of the pages returned. *)
Lemma pageLoop_Forall {R A : Type} (P : A -> Prop) (limit : Z)
    (fetch : Z -> M (listing R)) (conv : R -> A) :
  (forall r, P (conv r)) ->
  forall (fuel : nat) (start : Z) (all : list A) (w w' : World) (res : list A),
    Forall P all ->
    api.pageLoop fuel limit fetch conv start all w = (Ok res, w') ->
    Forall P res.
Proof.
  intros Hconv. induction fuel as [| fuel IH]; intros start all w w' res Hall H.
  - discriminate H.
  - cbn [api.pageLoop] in H. unfold bind in H.
    destruct (fetch start w) as [[page | e |] w1]; try discriminate H.
    assert (Hall' : Forall P (all ++ map conv (Results page))).
    { apply Forall_app. split; [exact Hall |].
      apply Forall_forall. intros x Hx. apply in_map_iff in Hx.
      destruct Hx as [r [<- _]]. apply Hconv. }
    destruct (len (Results page) <? limit)%Z.
    + injection H as <- _. exact Hall'.
    + eapply IH; eauto.
Qed.

(** C9.  Every page returned by [GetChildPages(parentPageID)] has
    [ParentID = parentPageID], and every page returned by [GetPages] has
    an empty [ParentID]. *)
Theorem listed_pages_ParentID (c : api.ConfluenceClient) (fuel : nat)
    (w w' : World) (pages : list models.Page) :
  (forall parentPageID,
      api.GetChildPages fuel c parentPageID w = (Ok pages, w') ->
      Forall (fun page => models.ParentID page = parentPageID) pages) /\
  (forall spaceKey,
      api.GetPages fuel c spaceKey w = (Ok pages, w') ->
      Forall (fun page => models.ParentID page = EmptyString) pages).
Proof.
  split.
  - intros parentPageID H.
    apply (pageLoop_Forall _ 25 _ (api.childPage parentPageID)
             (fun r => eq_refl) fuel 0%Z [] w w' pages (Forall_nil _) H).
  - intros spaceKey H.
    apply (pageLoop_Forall _ 25 _ api.spacePage
             (fun r => eq_refl) fuel 0%Z [] w w' pages (Forall_nil _) H).
Qed.

End Pagination.

Lemma teamServer_delivers :
  delivers (demo.client demo.teamServer) "/rest/api/content"
    (pagesParams "TEAM" 25) json_Decode_pages 25
    [demo.page (firstn 25 demo.teamRecords)]
    (demo.page (skipn 25 demo.teamRecords))
    [demo.teamRequest "0"; demo.teamRequest "25"].
Proof.
  split; [reflexivity |]. split.
  { constructor; [| constructor]. vm_compute. discriminate. }
  split; [reflexivity |].
  intros [| [| i]] req page Hr Hp; cbn in Hr, Hp.
  - injection Hr as <-. injection Hp as <-.
    split; [reflexivity |]. eexists. split; reflexivity.
  - injection Hr as <-. injection Hp as <-.
    split; [reflexivity |]. eexists. split; reflexivity.
  - destruct i; discriminate Hr.
Defined.

Lemma listings_stop_at_first_short_page_witness :
  api.GetPages 2 (demo.client demo.teamServer) "TEAM" demo.w0
  = (Ok (map api.spacePage demo.teamRecords),
     sentAll [demo.teamRequest "0"; demo.teamRequest "25"] demo.w0) /\
  length (map api.spacePage demo.teamRecords) = 25 + 5.
Proof.
  destruct (listings_stop_at_first_short_page
              (demo.client demo.teamServer) "TEAM" "R" 2 demo.w0)
    as [_ [H _]].
  destruct (H _ _ _ teamServer_delivers (le_n 2)) as [Hrun [Hlen _]].
  split; [exact Hrun | exact Hlen].
Defined.

Lemma failingServer_breaks :
  breaksAfter (demo.client demo.failingServer) "/rest/api/content"
    (pagesParams "TEAM" 25) json_Decode_pages 25
    [demo.page (firstn 25 demo.teamRecords)]
    [demo.teamRequest "0"]
    "net/http: timeout awaiting response headers".
Proof.
  split; [reflexivity |]. split.
  { constructor; [| constructor]. vm_compute. discriminate. }
  split.
  - intros [| i] req page Hr Hp; cbn in Hr, Hp.
    + injection Hr as <-. injection Hp as <-.
      split; [reflexivity |]. eexists. split; reflexivity.
    + destruct i; discriminate Hr.
  - right. exists (demo.teamRequest "25"). split; [reflexivity |].
    left. reflexivity.
Defined.

Lemma listings_are_all_or_nothing_witness :
  fst (api.GetPages 2 (demo.client demo.failingServer) "TEAM" demo.w0)
  = Err "net/http: timeout awaiting response headers".
Proof.
  destruct (listings_are_all_or_nothing
              (demo.client demo.failingServer) "TEAM" "R" 2 demo.w0
              "net/http: timeout awaiting response headers")
    as [_ [H _]].
  exact (H _ _ failingServer_breaks (le_n 2)).
Defined.

Lemma listed_pages_ParentID_witness :
  Forall (fun page => models.ParentID page = "R")
    [api.childPage "R" (demo.record "A"); api.childPage "R" (demo.record "B")] /\
  Forall (fun page => models.ParentID page = EmptyString)
    (map api.spacePage demo.teamRecords).
Proof.
  split.
  - apply (proj1 (listed_pages_ParentID
                    (demo.client demo.treeServer) 1 demo.w0
                    (snd (api.GetChildPages 1 (demo.client demo.treeServer)
                            "R" demo.w0)) _) "R").
    vm_compute. reflexivity.
  - apply (proj2 (listed_pages_ParentID
                    (demo.client demo.teamServer) 2 demo.w0
                    (snd (api.GetPages 2 (demo.client demo.teamServer)
                            "TEAM" demo.w0)) _) "TEAM").
    vm_compute. reflexivity.
Defined.

(** ** The export loop of one space *)

Section ExportLoop.

Context `{Ext : Externals}.

(* The loop over the pages: every page is saved, a failure adds a line. *)
Lemma forEach_saves_every_page (h : output.Handler) (c : api.ConfluenceClient)
    (spaceKey : string) (pages : list models.Page) :
  forall w : World,
    exporter.forEach pages (fun page =>
      exporter.orElse (output.Handler_SavePage h c page spaceKey)
        (fun err =>
           log_Printf ("❌ Failed to save page " ++ models.Title page ++
                       ": " ++ err))) w
    = (Ok tt,
       {| requests := requests w;
          logs := logs w ++
                  failureLines pages (fst (savePages h c spaceKey pages (sink w)));
          saves := saves w ++
                   map (fun page => {| savedPage := page;
                                       savedScope := spaceKey |}) pages;
          sink := snd (savePages h c spaceKey pages (sink w)) |}).
Proof.
  induction pages as [| page rest IH]; intros w.
  - cbn. rewrite !app_nil_r. now destruct w.
  - cbn [exporter.forEach savePages]. unfold bind at 1.
    unfold exporter.orElse, output.Handler_SavePage.
    destruct (output.SavePage h c page spaceKey (sink w)) as [[err |] s1] eqn:Hs.
    + unfold log_Printf. rewrite IH. cbn [requests logs saves sink logged].
      destruct (savePages h c spaceKey rest s1) as [errs s2].
      cbn [fst snd failureLines]. now rewrite <- !app_assoc.
    + rewrite IH. cbn [requests logs saves sink].
      destruct (savePages h c spaceKey rest s1) as [errs s2].
      cbn [fst snd failureLines]. now rewrite <- !app_assoc.
Qed.

(** C7.  Once [GetPages] has returned the pages of the space,
    [exportSpace] hands every one of them to [SavePage], once and in
    order, whatever the outcome for the pages before; it writes one line
    with the title of the page for each save that failed; and it returns
    nil. *)
Theorem exportSpace_survives_page_failures (fuel : nat)
    (c : api.ConfluenceClient) (spaceKey : string) (h : output.Handler)
    (w w1 : World) (pages : list models.Page) :
  api.GetPages fuel c spaceKey
    (logged ("🔍 Fetching pages from space: " ++ spaceKey) w) = (Ok pages, w1) ->
  exporter.exportSpace fuel c spaceKey h w
  = (Ok tt,
     {| requests := requests w1;
        logs := logs w1 ++
                [("📚 Found " ++ strconv_Itoa (len pages) ++
                  " pages to export in space " ++ spaceKey)%string] ++
                failureLines pages (fst (savePages h c spaceKey pages (sink w1)));
        saves := saves w1 ++
                 map (fun page => {| savedPage := page;
                                     savedScope := spaceKey |}) pages;
        sink := snd (savePages h c spaceKey pages (sink w1)) |}).
Proof.
  intros Hpages. unfold exporter.exportSpace.
  unfold bind at 1. unfold log_Printf at 1.
  unfold bind at 1. unfold wrapErr. rewrite Hpages.
  unfold bind at 1. unfold log_Printf at 1.
  unfold bind at 1. rewrite forEach_saves_every_page.
  cbn [requests logs saves sink logged ret]. now rewrite <- app_assoc.
Qed.

End ExportLoop.

Lemma exportSpace_survives_page_failures_witness :
  let '(r, w) := exporter.exportSpace 2 (demo.client demo.teamServer) "TEAM"
                   demo.picky demo.w0 in
  r = Ok tt /\
  logs w = [ "🔍 Fetching pages from space: TEAM";
             "📚 Found 30 pages to export in space TEAM";
             "❌ Failed to save page Page 3: disk full" ] /\
  length (saves w) = 30 /\
  length (sink w) = 29.
Proof.
  rewrite (exportSpace_survives_page_failures 2
             (demo.client demo.teamServer) "TEAM" demo.picky demo.w0
             (snd (api.GetPages 2 (demo.client demo.teamServer) "TEAM"
                     (logged "🔍 Fetching pages from space: TEAM" demo.w0)))
             (map api.spacePage demo.teamRecords)).
  - vm_compute. repeat split.
  - vm_compute. reflexivity.
Defined.

(** ** The tree walk *)

Section TreeWalk.

Context `{Ext : Externals}.

Lemma tree_induction (P : tree -> Prop) :
  (forall r kids, Forall P kids -> P (Node r kids)) ->
  forall t, P t.
Proof.
  intros H. fix IH 1. intros [r kids]. apply H.
  induction kids as [| k kids IHkids]; constructor; [apply IH | exact IHkids].
Qed.

(* The loop, when the bound on iterations is used up by the full pages. *)
Lemma pageLoop_starves {R A : Type} (limit : Z) (fetch : Z -> M (listing R))
    (conv : R -> A) (full : list (listing R)) :
  forall (start : Z) (all : list A) (fuel : nat) (w : World),
    Forall (fun page => (limit <= len (Results page))%Z) full ->
    (forall i page,
        nth_error full i = Some page ->
        exists req,
          forall w', fetch (start + limit * Z.of_nat i)%Z w' = (Ok page, sent req w')) ->
    fuel <= length full ->
    fst (api.pageLoop fuel limit fetch conv start all w) = Hang.
Proof.
  induction full as [| page full IH];
    intros start all fuel w Hfull Hfetch Hfuel.
  - destruct fuel as [| fuel]; [reflexivity | cbn in Hfuel; lia].
  - destruct fuel as [| fuel]; [reflexivity |].
    cbn [api.pageLoop]. unfold bind.
    destruct (Hfetch 0 page eq_refl) as [req H0]. specialize (H0 w).
    replace (start + limit * Z.of_nat 0)%Z with start in H0 by lia.
    rewrite H0.
    inversion Hfull as [| ? ? Hpage Hrest]; subst.
    assert (Hge : (len (Results page) <? limit)%Z = false)
      by (apply Z.ltb_ge; exact Hpage).
    rewrite Hge.
    apply IH.
    + exact Hrest.
    + intros i page' Hp.
      destruct (Hfetch (S i) page' Hp) as [req' Hreq']. exists req'.
      intros w'. specialize (Hreq' w').
      replace (start + limit * Z.of_nat (S i))%Z
        with (start + limit + limit * Z.of_nat i)%Z in Hreq' by lia.
      exact Hreq'.
    + cbn in Hfuel. lia.
Qed.

(* A child listing that is served returns its records or, with too small
   a bound, nothing; it never fails. *)
Lemma GetChildPages_listed (c : api.ConfluenceClient) (parentPageID : string)
    (kids : list pageResult) :
  listed c parentPageID kids ->
  exists n,
    forall fuel w,
      (fuel < n /\ fst (api.GetChildPages fuel c parentPageID w) = Hang) \/
      (n <= fuel /\
       exists w', api.GetChildPages fuel c parentPageID w
                  = (Ok (map (api.childPage parentPageID) kids), w')).
Proof.
  intros [full [last [reqs [Hd <-]]]].
  exists (S (length full)). intros fuel w.
  destruct (le_lt_dec fuel (length full)) as [Hle | Hlt].
  - left. split; [lia |].
    destruct Hd as [Hlen [Hfull [_ Hex]]].
    unfold api.GetChildPages.
    apply (pageLoop_starves 25 _ _ full); auto.
    intros i page Hp.
    assert (Hi : i < length full) by (apply nth_error_Some; congruence).
    destruct (nth_error reqs i) as [req |] eqn:Hr.
    + exists req. intros w'. rewrite fetchChildPages_eq.
      apply fetchWith_exchange. apply Hex; [exact Hr |].
      rewrite nth_error_app1; assumption.
    + apply nth_error_None in Hr. lia.
  - right. split; [lia |]. eexists.
    apply (listing_collects c _ _ _ _ _ _ full last reqs fuel w
             (fetchChildPages_eq c parentPageID 25) Hd Hlt).
Qed.

(* The loop over the children, when the walk of every child returns the
   pre-order of its tree. *)
Lemma appendSubtrees_preorder (walk : models.Page -> M (list models.Page))
    (parentPageID : string) (kids : list tree) :
  Forall (fun t => forall w, exists w',
            walk (api.childPage parentPageID (rootOf t)) w
            = (Ok (preorder parentPageID t), w')) kids ->
  forall pages w, exists w',
    exporter.appendSubtrees walk
      (map (api.childPage parentPageID) (map rootOf kids)) pages w
    = (Ok (pages ++ flat_map (preorder parentPageID) kids), w').
Proof.
  induction 1 as [| t kids Ht _ IH]; intros pages w.
  - exists w. cbn. now rewrite app_nil_r.
  - cbn [map exporter.appendSubtrees flat_map]. unfold bind.
    destruct (Ht w) as [w1 ->].
    destruct (IH (pages ++ preorder parentPageID t) w1) as [w2 ->].
    exists w2. now rewrite <- app_assoc.
Qed.

Lemma Forall_bound {T : Type} (Q : T -> nat -> Prop) (l : list T) :
  Forall (fun x => exists n, forall fuel, n <= fuel -> Q x fuel) l ->
  exists n, forall fuel, n <= fuel -> Forall (fun x => Q x fuel) l.
Proof.
  induction 1 as [| x l [n Hn] _ [m Hm]].
  - exists 0. constructor.
  - exists (Nat.max n m). intros fuel Hfuel. constructor.
    + apply Hn. lia.
    + apply Hm. lia.
Qed.

(* The walk of a tree that the server holds. *)
Lemma collectChildPages_preorder (c : api.ConfluenceClient) (t : tree) :
  serves c t ->
  exists n, forall fuel, n <= fuel ->
    forall parentPageID w, exists w',
      exporter.collectChildPages fuel c
        (api.childPage parentPageID (rootOf t)) w
      = (Ok (preorder parentPageID t), w').
Proof.
  induction t as [r kids IH] using tree_induction. intros Hs.
  inversion Hs as [r' kids' Hlisted Hkids]; subst.
  assert (IH' : Forall (fun k => exists n, forall fuel, n <= fuel ->
                          forall parentPageID w, exists w',
                            exporter.collectChildPages fuel c
                              (api.childPage parentPageID (rootOf k)) w
                            = (Ok (preorder parentPageID k), w')) kids).
  { rewrite Forall_forall in *. intros k Hk. apply IH; auto. }
  apply Forall_bound in IH'. destruct IH' as [nk Hnk].
  destruct (GetChildPages_listed c _ _ Hlisted) as [nl Hnl].
  exists (S (Nat.max nl nk)). intros fuel Hfuel parentPageID w.
  destruct fuel as [| fuel]; [lia |].
  cbn [exporter.collectChildPages models.ID api.childPage rootOf].
  unfold bind, wrapErr.
  destruct (Hnl fuel w) as [[Hlt _] | [_ [w1 ->]]]; [lia |].
  destruct (appendSubtrees_preorder (exporter.collectChildPages fuel c)
              (r_ID r) kids) with (pages := [api.childPage parentPageID r])
                                  (w := w1) as [w2 Hw2].
  { assert (Hf : nk <= fuel) by lia. specialize (Hnk fuel Hf).
    rewrite Forall_forall in *. intros k Hk w'. now apply Hnk. }
  exists w2. exact Hw2.
Qed.

Lemma preorder_IDs (parentPageID : string) (t : tree) :
  map models.ID (preorder parentPageID t) = treeIDs t.
Proof.
  revert parentPageID. induction t as [r kids IH] using tree_induction.
  intros parentPageID. cbn. f_equal.
  induction IH as [| k kids Hk _ IHkids]; [reflexivity |].
  cbn. now rewrite map_app, Hk, IHkids.
Qed.

Lemma GetPage_rootServed (c : api.ConfluenceClient) (rootPageID : string)
    (d : pageDetail) (w : World) :
  rootServed c rootPageID d ->
  exists w', api.GetPage c rootPageID w = (Ok (detailPage d), w').
Proof.
  intros [req [Hreq [resp [Hdo Hdec]]]]. exists (sent req w).
  unfold api.GetPage, bind. cbv zeta. unfold Values_Add. cbn [app].
  rewrite sendRequest_eq, Hreq, Hdo, Hdec. reflexivity.
Qed.

(** C3.  When the server holds a finite tree of pages below the root
    (the child listing of every node delivers the roots of its children),
    [fetchPageTree] returns, for every bound on the recursion that is
    large enough, the root page first and then the pre-order of the tree
    of each child, in the order of the listing; the ids it returns are
    those of the tree in pre-order, one per node. *)
Theorem fetchPageTree_preorder (c : api.ConfluenceClient)
    (rootPageID : string) (d : pageDetail) (kids : list tree) :
  rootServed c rootPageID d ->
  listed c (d_ID d) (map rootOf kids) ->
  Forall (serves c) kids ->
  exists n, forall fuel, n <= fuel -> forall w, exists pages w',
    exporter.fetchPageTree fuel c rootPageID w = (Ok pages, w') /\
    pages = detailPage d :: flat_map (preorder (d_ID d)) kids /\
    map models.ID pages = d_ID d :: flat_map treeIDs kids /\
    length pages = S (length (flat_map treeIDs kids)).
Proof.
  intros Hroot Hlisted Hkids.
  assert (Hw : Forall (fun k => exists n, forall fuel, n <= fuel ->
                         forall parentPageID w, exists w',
                           exporter.collectChildPages fuel c
                             (api.childPage parentPageID (rootOf k)) w
                           = (Ok (preorder parentPageID k), w')) kids).
  { rewrite Forall_forall in *. intros k Hk.
    apply collectChildPages_preorder. auto. }
  apply Forall_bound in Hw. destruct Hw as [nk Hnk].
  destruct (GetChildPages_listed c _ _ Hlisted) as [nl Hnl].
  exists (Nat.max nl nk). intros fuel Hfuel w.
  assert (Hids : map models.ID (flat_map (preorder (d_ID d)) kids)
                 = flat_map treeIDs kids).
  { clear. induction kids as [| k kids IH]; [reflexivity |].
    cbn. now rewrite map_app, preorder_IDs, IH. }
  exists (detailPage d :: flat_map (preorder (d_ID d)) kids).
  unfold exporter.fetchPageTree. unfold bind at 1. unfold wrapErr at 1.
  destruct (GetPage_rootServed c rootPageID d w Hroot) as [w1 ->].
  unfold bind at 1. unfold wrapErr.
  change (models.ID (detailPage d)) with (d_ID d).
  destruct (Hnl fuel w1) as [[Hlt _] | [_ [w2 ->]]]; [lia |].
  destruct (appendSubtrees_preorder (exporter.collectChildPages fuel c)
              (d_ID d) kids) with (pages := [detailPage d]) (w := w2)
    as [w3 Hw3].
  { assert (Hf : nk <= fuel) by lia. specialize (Hnk fuel Hf).
    rewrite Forall_forall in *. intros k Hk w'. now apply Hnk. }
  exists w3. split; [exact Hw3 |]. split; [reflexivity |].
  split.
  - cbn [map]. now rewrite Hids.
  - cbn [length]. now rewrite <- Hids, length_map.
Qed.

End TreeWalk.

Section Divergence.

Context `{Ext : Externals}.

Variable c : api.ConfluenceClient.
Variables G S : string -> Prop.
Hypothesis G_healthy : healthy c G.
Hypothesis S_descends : descends c G S.

Lemma appendSubtrees_no_Err (walk : models.Page -> M (list models.Page))
    (children : list models.Page) :
  (forall child, In child children ->
     forall w e, fst (walk child w) <> Err e) ->
  forall pages w e,
    fst (exporter.appendSubtrees walk children pages w) <> Err e.
Proof.
  induction children as [| child rest IH]; intros Hwalk pages w e.
  - discriminate.
  - cbn [exporter.appendSubtrees]. unfold bind.
    pose proof (Hwalk child (or_introl eq_refl) w) as Hchild.
    destruct (walk child w) as [[subtree | e' |] w1]; cbn in *.
    + apply IH. intros ch Hch. apply Hwalk. now right.
    + now destruct (Hchild e').
    + discriminate.
Qed.

Lemma appendSubtrees_Hang (walk : models.Page -> M (list models.Page))
    (children : list models.Page) (lost : models.Page) :
  In lost children ->
  (forall w, fst (walk lost w) = Hang) ->
  (forall child, In child children ->
     forall w e, fst (walk child w) <> Err e) ->
  forall pages w,
    fst (exporter.appendSubtrees walk children pages w) = Hang.
Proof.
  induction children as [| child rest IH]; intros Hin Hlost Hwalk pages w.
  - destruct Hin.
  - cbn [exporter.appendSubtrees]. unfold bind.
    pose proof (Hwalk child (or_introl eq_refl) w) as Hchild.
    destruct Hin as [-> | Hin].
    + specialize (Hlost w).
      destruct (walk lost w) as [[subtree | e' |] w1]; cbn in *;
        try discriminate Hlost. reflexivity.
    + destruct (walk child w) as [[subtree | e' |] w1]; cbn in *.
      * apply IH; [exact Hin | exact Hlost |].
        intros ch Hch. apply Hwalk. now right.
      * now destruct (Hchild e').
      * reflexivity.
Qed.

(* Inside a healthy graph the walk does not fail. *)
Lemma collectChildPages_no_Err :
  forall fuel page w e,
    G (models.ID page) ->
    fst (exporter.collectChildPages fuel c page w) <> Err e.
Proof.
  induction fuel as [| fuel IH]; intros page w e HG.
  - discriminate.
  - cbn [exporter.collectChildPages]. unfold bind, wrapErr.
    destruct (G_healthy _ HG) as [kids [Hlisted Hkids]].
    destruct (GetChildPages_listed c _ _ Hlisted) as [n Hn].
    destruct (Hn fuel w) as [[_ Hhang] | [_ [w1 Hok]]].
    + destruct (api.GetChildPages fuel c (models.ID page) w)
        as [[children | e' |] w1]; cbn in Hhang; try discriminate Hhang.
      discriminate.
    + rewrite Hok. apply appendSubtrees_no_Err.
      intros child Hchild w' e'. apply in_map_iff in Hchild.
      destruct Hchild as [k [<- Hk]]. apply IH. cbn.
      rewrite Forall_forall in Hkids. now apply Hkids.
Qed.

(* From an id of [S] the walk does not return. *)
Lemma collectChildPages_Hang :
  forall fuel page w,
    S (models.ID page) ->
    fst (exporter.collectChildPages fuel c page w) = Hang.
Proof.
  induction fuel as [| fuel IH]; intros page w HS.
  - reflexivity.
  - cbn [exporter.collectChildPages]. unfold bind, wrapErr.
    destruct (S_descends _ HS) as [kids [kid [Hlisted [Hkids [Hin HkidS]]]]].
    destruct (GetChildPages_listed c _ _ Hlisted) as [n Hn].
    destruct (Hn fuel w) as [[_ Hhang] | [_ [w1 Hok]]].
    + destruct (api.GetChildPages fuel c (models.ID page) w)
        as [[children | e' |] w1]; cbn in Hhang; try discriminate Hhang.
      reflexivity.
    + rewrite Hok.
      apply (appendSubtrees_Hang _ _ (api.childPage (models.ID page) kid)).
      * now apply in_map.
      * intros w'. now apply IH.
      * intros child Hchild w' e'. apply in_map_iff in Hchild.
        destruct Hchild as [k [<- Hk]]. apply collectChildPages_no_Err. cbn.
        rewrite Forall_forall in Hkids. now apply Hkids.
Qed.

Lemma fetchPageTree_Hang (rootPageID : string) (d : pageDetail) :
  rootServed c rootPageID d ->
  S (d_ID d) ->
  forall fuel w, fst (exporter.fetchPageTree fuel c rootPageID w) = Hang.
Proof.
  intros Hroot HS fuel w.
  unfold exporter.fetchPageTree. unfold bind at 1. unfold wrapErr at 1.
  destruct (GetPage_rootServed c rootPageID d w Hroot) as [w1 ->].
  unfold bind at 1. unfold wrapErr.
  change (models.ID (detailPage d)) with (d_ID d).
  destruct (S_descends _ HS) as [kids [kid [Hlisted [Hkids [Hin HkidS]]]]].
  destruct (GetChildPages_listed c _ _ Hlisted) as [n Hn].
  destruct (Hn fuel w1) as [[_ Hhang] | [_ [w2 Hok]]].
  - destruct (api.GetChildPages fuel c (d_ID d) w1)
      as [[children | e' |] w2]; cbn in Hhang; try discriminate Hhang.
    reflexivity.
  - rewrite Hok.
    apply (appendSubtrees_Hang _ _ (api.childPage (d_ID d) kid)).
    + now apply in_map.
    + intros w'. now apply collectChildPages_Hang.
    + intros child Hchild w' e'. apply in_map_iff in Hchild.
      destruct Hchild as [k [<- Hk]]. apply collectChildPages_no_Err. cbn.
      rewrite Forall_forall in Hkids. now apply Hkids.
Qed.

End Divergence.

(** C2, as the code has it.  [fetchPageTree] and [collectChildPages] keep
    no set of visited ids: every page of a child listing is descended
    into.  On an id-graph whose listings are all delivered and in which a
    cycle is reached from the root page (the root id lies in a set [S] of
    ids that each have a child in [S]), the walk returns for no bound on
    the depth of the recursion: it does not terminate. *)
Theorem fetchPageTree_cycle_diverges `{Ext : Externals}
    (c : api.ConfluenceClient) (G S : string -> Prop)
    (rootPageID : string) (d : pageDetail) :
  healthy c G ->
  descends c G S ->
  rootServed c rootPageID d ->
  S (d_ID d) ->
  forall fuel w, fst (exporter.fetchPageTree fuel c rootPageID w) = Hang.
Proof.
  intros HG HS Hroot Hd. exact (fetchPageTree_Hang c G S HG HS rootPageID d Hroot Hd).
Qed.

(** ** Finite collections served in slices

    A server that holds a finite collection and answers the request at
    offset [start] with the records from [start] on, at most [limit] of
    them, always ends on a short page: the listing returns the whole
    collection after [length data / limit + 1] requests. *)

Section Slices.

Context `{Ext : Externals}.

Lemma pageLoop_sliced {R A : Type} (L : nat) (fetch : Z -> M (listing R))
    (conv : R -> A) :
  0 < L ->
  forall (n : nat) (data : list R) (start : Z) (all : list A) (fuel : nat)
         (w : World),
    length data < L * n ->
    (forall i w', exists req page,
        Results page = firstn L (skipn (L * i) data) /\
        fetch (start + Z.of_nat L * Z.of_nat i)%Z w' = (Ok page, sent req w')) ->
    n <= fuel ->
    exists w',
      api.pageLoop fuel (Z.of_nat L) fetch conv start all w
      = (Ok (all ++ map conv data), w') /\
      length (requests w') = length (requests w) + length data / L + 1.
Proof.
  intros HL. induction n as [| n IH];
    intros data start all fuel w Hlen Hfetch Hfuel; [lia |].
  destruct fuel as [| fuel]; [lia |].
  cbn [api.pageLoop]. unfold bind.
  destruct (Hfetch 0 w) as [req [page [Hres H0]]].
  replace (start + Z.of_nat L * Z.of_nat 0)%Z with start in H0 by lia.
  rewrite Nat.mul_0_r in Hres. cbn [skipn] in Hres.
  rewrite H0, Hres. unfold len. rewrite length_firstn.
  destruct (Z.ltb_spec (Z.of_nat (Nat.min L (length data))) (Z.of_nat L))
    as [Hshort | Hfullpage].
  - exists (sent req w). assert (Hd : length data < L) by lia.
    rewrite firstn_all2 by lia. split; [reflexivity |].
    cbn. rewrite length_app, Nat.div_small by exact Hd. cbn. lia.
  - assert (Hd : L <= length data) by lia.
    destruct (IH (skipn L data) (start + Z.of_nat L)%Z
                (all ++ map conv (firstn L data)) fuel (sent req w))
      as [w' [Hrun Hreqs]].
    + rewrite length_skipn. nia.
    + intros i w0. destruct (Hfetch (S i) w0) as [req' [page' [Hres' H']]].
      exists req', page'. split.
      * rewrite Hres', skipn_skipn. do 2 f_equal. lia.
      * replace (start + Z.of_nat L + Z.of_nat L * Z.of_nat i)%Z
          with (start + Z.of_nat L * Z.of_nat (S i))%Z by lia.
        exact H'.
    + lia.
    + exists w'. split.
      * rewrite Hrun. f_equal. f_equal.
        rewrite <- app_assoc, <- map_app. now rewrite firstn_skipn.
      * rewrite Hreqs. cbn. rewrite length_app, length_skipn. cbn.
        replace (length data) with (1 * L + (length data - L)) at 2 by lia.
        rewrite Nat.div_add_l by lia. lia.
Qed.

(* The three listings on a collection served in slices of 25. *)
Lemma listing_sliced {R A : Type} (c : api.ConfluenceClient)
    (endpoint : string) (params : Z -> Values)
    (decode : Body -> error + listing R)
    (fetch : Z -> M (listing R)) (conv : R -> A) (data : list R)
    (fuel : nat) (w : World) :
  (forall start, fetch start = fetchWith c endpoint (params start) decode) ->
  (forall i, exists req page,
      Results page = firstn 25 (skipn (25 * i) data) /\
      exchange c endpoint (params (25 * Z.of_nat i)%Z) decode req page) ->
  length data / 25 < fuel ->
  exists w',
    api.pageLoop fuel 25 fetch conv 0 [] w = (Ok (map conv data), w') /\
    length (requests w') = length (requests w) + length data / 25 + 1.
Proof.
  intros Hfetch Hex Hfuel.
  apply (pageLoop_sliced 25 fetch conv ltac:(lia) (S (length data / 25))
           data 0%Z [] fuel w).
  - pose proof (Nat.div_mod_eq (length data) 25) as Hdm.
    pose proof (Nat.mod_upper_bound (length data) 25 ltac:(lia)). lia.
  - intros i w'. destruct (Hex i) as [req [page [Hres Hx]]].
    exists req, page. split; [exact Hres |].
    rewrite Hfetch. cbn [Z.add]. now apply fetchWith_exchange.
  - lia.
Qed.

Lemma GetPages_sliced (c : api.ConfluenceClient) (spaceKey : string)
    (data : list pageResult) (fuel : nat) (w : World) :
  (forall i, exists req page,
      Results page = firstn 25 (skipn (25 * i) data) /\
      exchange c "/rest/api/content" (pagesParams spaceKey 25 (25 * Z.of_nat i)%Z)
        json_Decode_pages req page) ->
  length data / 25 < fuel ->
  exists w',
    api.GetPages fuel c spaceKey w = (Ok (map api.spacePage data), w') /\
    length (requests w') = length (requests w) + length data / 25 + 1.
Proof.
  intros Hex Hfuel.
  apply (listing_sliced c _ _ _ _ _ data fuel w
           (fetchPages_eq c spaceKey 25) Hex Hfuel).
Qed.

Lemma GetChildPages_sliced (c : api.ConfluenceClient) (parentPageID : string)
    (data : list pageResult) (fuel : nat) (w : World) :
  (forall i, exists req page,
      Results page = firstn 25 (skipn (25 * i) data) /\
      exchange c (childEndpoint parentPageID) (childParams 25 (25 * Z.of_nat i)%Z)
        json_Decode_pages req page) ->
  length data / 25 < fuel ->
  exists w',
    api.GetChildPages fuel c parentPageID w
    = (Ok (map (api.childPage parentPageID) data), w') /\
    length (requests w') = length (requests w) + length data / 25 + 1.
Proof.
  intros Hex Hfuel.
  apply (listing_sliced c _ _ _ _ _ data fuel w
           (fetchChildPages_eq c parentPageID 25) Hex Hfuel).
Qed.

Lemma GetSpaces_sliced (c : api.ConfluenceClient)
    (data : list models.Space) (fuel : nat) (w : World) :
  (forall i, exists req page,
      Results page = firstn 25 (skipn (25 * i) data) /\
      exchange c "/rest/api/space" (spacesParams 25 (25 * Z.of_nat i)%Z)
        json_Decode_spaces req page) ->
  length data / 25 < fuel ->
  exists w',
    api.GetSpaces fuel c w = (Ok data, w') /\
    length (requests w') = length (requests w) + length data / 25 + 1.
Proof.
  intros Hex Hfuel.
  destruct (listing_sliced c _ _ _ _ (fun s : models.Space => s) data fuel w
              (fetchSpaces_eq c 25) Hex Hfuel) as [w' [Hrun Hreqs]].
  exists w'. split; [| exact Hreqs].
  rewrite map_id in Hrun. exact Hrun.
Qed.

End Slices.

(** ** The bound on iterations

    An outcome other than [Hang] does not depend on the bound: a larger
    bound gives the same outcome and the same world. *)

Section Bound.

Context `{Ext : Externals}.

Lemma pageLoop_mono {R A : Type} (limit : Z) (fetch : Z -> M (listing R))
    (conv : R -> A) :
  forall fuel fuel' start all w r w',
    fuel <= fuel' ->
    api.pageLoop fuel limit fetch conv start all w = (r, w') ->
    r <> Hang ->
    api.pageLoop fuel' limit fetch conv start all w = (r, w').
Proof.
  induction fuel as [| fuel IH]; intros fuel' start all w r w' Hle H Hr.
  - cbn in H. injection H as <- _. now destruct Hr.
  - destruct fuel' as [| fuel']; [lia |].
    cbn [api.pageLoop] in *. unfold bind in *.
    destruct (fetch start w) as [[page | e |] w1]; try exact H.
    destruct (len (Results page) <? limit)%Z; [exact H |].
    apply IH; [lia | exact H | exact Hr].
Qed.

Lemma appendSubtrees_mono (walk walk' : models.Page -> M (list models.Page)) :
  (forall child w r w', walk child w = (r, w') -> r <> Hang ->
                        walk' child w = (r, w')) ->
  forall children pages w r w',
    exporter.appendSubtrees walk children pages w = (r, w') ->
    r <> Hang ->
    exporter.appendSubtrees walk' children pages w = (r, w').
Proof.
  intros Hwalk. induction children as [| child rest IH];
    intros pages w r w' H Hr.
  - exact H.
  - cbn [exporter.appendSubtrees] in *. unfold bind in *.
    destruct (walk child w) as [[subtree | e |] w1] eqn:Hchild.
    + rewrite (Hwalk _ _ _ _ Hchild) by discriminate. now apply IH.
    + rewrite (Hwalk _ _ _ _ Hchild) by discriminate. exact H.
    + injection H as <- _. now destruct Hr.
Qed.

Lemma wrapErr_mono {A : Type} (f : error -> error) (m m' : M A) :
  (forall w r w', m w = (r, w') -> r <> Hang -> m' w = (r, w')) ->
  forall w r w', wrapErr f m w = (r, w') -> r <> Hang ->
                 wrapErr f m' w = (r, w').
Proof.
  intros Hm w r w' H Hr. unfold wrapErr in *.
  destruct (m w) as [[a | e |] w1] eqn:E.
  - now rewrite (Hm _ _ _ E) by discriminate.
  - now rewrite (Hm _ _ _ E) by discriminate.
  - injection H as <- _. now destruct Hr.
Qed.

Lemma collectChildPages_mono (c : api.ConfluenceClient) :
  forall fuel fuel' page w r w',
    fuel <= fuel' ->
    exporter.collectChildPages fuel c page w = (r, w') ->
    r <> Hang ->
    exporter.collectChildPages fuel' c page w = (r, w').
Proof.
  induction fuel as [| fuel IH]; intros fuel' page w r w' Hle H Hr.
  - cbn in H. injection H as <- _. now destruct Hr.
  - destruct fuel' as [| fuel']; [lia |].
    cbn [exporter.collectChildPages] in *. unfold bind in *.
    match type of H with
    | context [wrapErr ?f ?m w] =>
        destruct (wrapErr f m w) as [[children | e |] w1] eqn:Hlist
    end.
    + apply (wrapErr_mono _ _ (api.GetChildPages fuel' c (models.ID page)))
        in Hlist; [| | discriminate].
      * rewrite Hlist.
        apply (appendSubtrees_mono (exporter.collectChildPages fuel c));
          [| exact H | exact Hr].
        intros child w0 r0 w0' H0 Hr0. apply (IH fuel'); [lia | exact H0 | exact Hr0].
      * intros w0 r0 w0' H0 Hr0. unfold api.GetChildPages in *.
        apply (pageLoop_mono _ _ _ fuel); [lia | exact H0 | exact Hr0].
    + apply (wrapErr_mono _ _ (api.GetChildPages fuel' c (models.ID page)))
        in Hlist; [| | discriminate].
      * rewrite Hlist. exact H.
      * intros w0 r0 w0' H0 Hr0. unfold api.GetChildPages in *.
        apply (pageLoop_mono _ _ _ fuel); [lia | exact H0 | exact Hr0].
    + injection H as <- _. now destruct Hr.
Qed.

Lemma fetchPageTree_mono (c : api.ConfluenceClient) (rootPageID : string) :
  forall fuel fuel' w r w',
    fuel <= fuel' ->
    exporter.fetchPageTree fuel c rootPageID w = (r, w') ->
    r <> Hang ->
    exporter.fetchPageTree fuel' c rootPageID w = (r, w').
Proof.
  intros fuel fuel' w r w' Hle H Hr.
  unfold exporter.fetchPageTree in *. unfold bind at 1 in H. unfold bind at 1.
  match type of H with
  | context [wrapErr ?f ?m w] =>
      destruct (wrapErr f m w) as [[rootPage | e |] w1]
  end; try exact H.
  unfold bind in *.
  match type of H with
  | context [wrapErr ?f ?m w1] =>
      destruct (wrapErr f m w1) as [[children | e |] w2] eqn:Hlist
  end.
  - apply (wrapErr_mono _ _ (api.GetChildPages fuel' c (models.ID rootPage)))
      in Hlist; [| | discriminate].
    + rewrite Hlist.
      apply (appendSubtrees_mono (exporter.collectChildPages fuel c));
        [| exact H | exact Hr].
      intros child w0 r0 w0' H0 Hr0.
      apply (collectChildPages_mono c fuel); [lia | exact H0 | exact Hr0].
    + intros w0 r0 w0' H0 Hr0. unfold api.GetChildPages in *.
      apply (pageLoop_mono _ _ _ fuel); [lia | exact H0 | exact Hr0].
  - apply (wrapErr_mono _ _ (api.GetChildPages fuel' c (models.ID rootPage)))
      in Hlist; [| | discriminate].
    + rewrite Hlist. exact H.
    + intros w0 r0 w0' H0 Hr0. unfold api.GetChildPages in *.
      apply (pageLoop_mono _ _ _ fuel); [lia | exact H0 | exact Hr0].
  - injection H as <- _. now destruct Hr.
Qed.

End Bound.

(** ** The scenarios on the test double *)

(* A child listing delivered as one short page. *)
Ltac listed_in_one_page id l :=
  exists [], (demo.page l), [demo.childRequest id];
  split; [| reflexivity];
  split; [reflexivity |];
  split; [constructor |];
  split; [reflexivity |];
  let i := fresh "i" in
  let Hr := fresh "Hr" in
  let Hp := fresh "Hp" in
  intros [| i] ? ? Hr Hp; cbn in Hr, Hp;
  [ injection Hr as <-; injection Hp as <-;
    split; [reflexivity | eexists; split; reflexivity]
  | destruct i; discriminate Hr ].

Lemma treeServer_root :
  rootServed (demo.client demo.treeServer) "R" (demo.detail "R" []).
Proof. eexists. split; [reflexivity | eexists; split; reflexivity]. Defined.

Lemma treeServer_listed_R :
  listed (demo.client demo.treeServer) "R" [demo.record "A"; demo.record "B"].
Proof. listed_in_one_page "R" [demo.record "A"; demo.record "B"]. Defined.

Lemma treeServer_listed_A :
  listed (demo.client demo.treeServer) "A" [demo.record "A1"].
Proof. listed_in_one_page "A" [demo.record "A1"]. Defined.

Lemma treeServer_listed_A1 :
  listed (demo.client demo.treeServer) "A1" [].
Proof. listed_in_one_page "A1" (@nil pageResult). Defined.

Lemma treeServer_listed_B :
  listed (demo.client demo.treeServer) "B" [].
Proof. listed_in_one_page "B" (@nil pageResult). Defined.

Lemma treeServer_serves :
  Forall (serves (demo.client demo.treeServer)) demo.treeBelowR.
Proof.
  repeat constructor.
  - exact treeServer_listed_A.
  - exact treeServer_listed_A1.
  - exact treeServer_listed_B.
Defined.

Lemma fetchPageTree_preorder_witness :
  exists n, forall fuel, n <= fuel -> forall w, exists pages w',
    exporter.fetchPageTree fuel (demo.client demo.treeServer) "R" w
    = (Ok pages, w') /\
    pages = [ detailPage (demo.detail "R" []);
              api.childPage "R" (demo.record "A");
              api.childPage "A" (demo.record "A1");
              api.childPage "R" (demo.record "B") ] /\
    map models.ID pages = ["R"; "A"; "A1"; "B"] /\
    length pages = 4.
Proof.
  exact (fetchPageTree_preorder (demo.client demo.treeServer) "R"
           (demo.detail "R" []) demo.treeBelowR
           treeServer_root treeServer_listed_R treeServer_serves).
Defined.

(* The scenario of the specification, run with a bound of 3. *)
Example fetchPageTree_R_A_A1_B :
  option_map (map models.ID)
    (match fst (exporter.fetchPageTree 3 (demo.client demo.treeServer) "R" demo.w0) with
     | Ok pages => Some pages
     | _ => None
     end)
  = Some ["R"; "A"; "A1"; "B"].
Proof. vm_compute. reflexivity. Qed.

Lemma cyclicServer_root :
  rootServed (demo.client demo.cyclicServer) "R" (demo.detail "R" []).
Proof. eexists. split; [reflexivity | eexists; split; reflexivity]. Defined.

Lemma cyclicServer_listed_R :
  listed (demo.client demo.cyclicServer) "R" [demo.record "A"].
Proof. listed_in_one_page "R" [demo.record "A"]. Defined.

Lemma cyclicServer_listed_A :
  listed (demo.client demo.cyclicServer) "A" [demo.record "R"].
Proof. listed_in_one_page "A" [demo.record "R"]. Defined.

Lemma cyclicServer_healthy :
  healthy (demo.client demo.cyclicServer) demo.onCycle.
Proof.
  intros id [-> | ->].
  - exists [demo.record "A"]. split; [exact cyclicServer_listed_R |].
    constructor; [now right | constructor].
  - exists [demo.record "R"]. split; [exact cyclicServer_listed_A |].
    constructor; [now left | constructor].
Defined.

Lemma cyclicServer_descends :
  descends (demo.client demo.cyclicServer) demo.onCycle demo.onCycle.
Proof.
  intros id [-> | ->].
  - exists [demo.record "A"], (demo.record "A").
    split; [exact cyclicServer_listed_R |].
    split; [constructor; [now right | constructor] |].
    split; [now left | now right].
  - exists [demo.record "R"], (demo.record "R").
    split; [exact cyclicServer_listed_A |].
    split; [constructor; [now left | constructor] |].
    split; [now left | now left].
Defined.

(* C2 does not hold as stated: on the cycle R -> A -> R the walk returns
   for no bound. *)
Lemma fetchPageTree_cycle_never_returns :
  ~ exists fuel pages w',
      exporter.fetchPageTree fuel (demo.client demo.cyclicServer) "R" demo.w0
      = (Ok pages, w').
Proof.
  intros [fuel [pages [w' H]]].
  pose proof (fetchPageTree_Hang (demo.client demo.cyclicServer)
                demo.onCycle demo.onCycle
                cyclicServer_healthy cyclicServer_descends
                "R" (demo.detail "R" []) cyclicServer_root
                (or_introl eq_refl) fuel demo.w0) as Hhang.
  rewrite H in Hhang. discriminate Hhang.
Qed.

Lemma fetchPageTree_cycle_diverges_witness :
  fst (exporter.fetchPageTree 40 (demo.client demo.cyclicServer) "R" demo.w0)
  = Hang.
Proof.
  exact (fetchPageTree_cycle_diverges (demo.client demo.cyclicServer)
           demo.onCycle demo.onCycle "R" (demo.detail "R" [])
           cyclicServer_healthy cyclicServer_descends cyclicServer_root
           (or_introl eq_refl) 40 demo.w0).
Defined.

(** * Further properties of the code *)

(** ** The embedded store, over whole exports *)

Lemma hasUID_cons (u : string) (q : db.Page) (ps : list db.Page) :
  db_handle.hasUID u (q :: ps)
  = (String.eqb (db.UID q) u || db_handle.hasUID u ps)%bool.
Proof. reflexivity. Qed.

Lemma hasUID_false_filter (u : string) (ps : list db.Page) :
  db_handle.hasUID u ps = false ->
  filter (fun x => String.eqb (db.uid x) u) (db_handle.lastRows ps) = [].
Proof.
  induction ps as [| q ps IH]; intros H; [reflexivity |].
  rewrite hasUID_cons in H. apply orb_false_iff in H. destruct H as [Hq Hps].
  cbn [db_handle.lastRows].
  destruct (db_handle.hasUID (db.UID q) ps); [now apply IH |].
  cbn. rewrite Hq. now apply IH.
Qed.

Lemma filter_twice {T : Type} (f g : T -> bool) (l : list T) :
  filter f (filter g l) = filter (fun x => g x && f x) l.
Proof.
  induction l as [| x l IH]; [reflexivity |].
  cbn. destruct (g x); cbn; [destruct (f x) |]; now rewrite IH.
Qed.

(* The table after a sequence of inserts: the rows of other uids, then
   the last row of each uid inserted. *)
Lemma insertAll_rows (ps : list db.Page) :
  forall (d : db.DB) (l : list db.Row),
    db.closed d = false -> db.pages d = Some l ->
    db_handle.insertAll d ps
    = (None,
       {| db.closed := false;
          db.pages :=
            Some (filter (fun x => negb (db_handle.hasUID (db.uid x) ps)) l
                  ++ db_handle.lastRows ps) |}).
Proof.
  induction ps as [| q ps IH]; intros d l Hc Hp.
  - cbn. rewrite app_nil_r.
    rewrite filter_true.
    destruct d as [cl pg]; cbn in *. now subst.
  - cbn [db_handle.insertAll]. rewrite (InsertPage_open d l q Hc Hp).
    erewrite IH; [| reflexivity | reflexivity]. do 3 f_equal.
    rewrite filter_app. cbn [filter db.uid db_handle.lastRows].
    rewrite <- app_assoc. f_equal.
    + rewrite filter_twice. apply filter_ext. intros x.
      unfold db_handle.hasUID. cbn [existsb].
      rewrite (String.eqb_sym (db.UID q) (db.uid x)).
      now rewrite negb_orb.
    + now destruct (db_handle.hasUID (db.UID q) ps).
Qed.

Lemma lastRows_uids_in (ps : list db.Page) (r : db.Row) :
  In r (db_handle.lastRows ps) -> db_handle.hasUID (db.uid r) ps = true.
Proof.
  induction ps as [| q ps IH]; intros Hin; [destruct Hin |].
  cbn [db_handle.lastRows] in Hin. rewrite hasUID_cons.
  destruct (db_handle.hasUID (db.UID q) ps).
  - rewrite (IH Hin). apply orb_true_r.
  - destruct Hin as [<- | Hin].
    + cbn. now rewrite String.eqb_refl.
    + rewrite (IH Hin). apply orb_true_r.
Qed.

Lemma lastRows_NoDup (ps : list db.Page) :
  NoDup (map db.uid (db_handle.lastRows ps)).
Proof.
  induction ps as [| q ps IH]; [constructor |].
  cbn [db_handle.lastRows].
  destruct (db_handle.hasUID (db.UID q) ps) eqn:Hq; [exact IH |].
  cbn. constructor; [| exact IH].
  intros Hin. apply in_map_iff in Hin. destruct Hin as [r [Hr Hin]].
  apply lastRows_uids_in in Hin. cbn in Hr. rewrite Hr in Hin. congruence.
Qed.

Lemma map_uid_filter_NoDup (f : db.Row -> bool) (l : list db.Row) :
  NoDup (map db.uid l) -> NoDup (map db.uid (filter f l)).
Proof.
  induction l as [| x l IH]; intros H; [constructor |].
  inversion H as [| ? ? Hx Hl]; subst. cbn.
  destruct (f x); [| now apply IH].
  cbn. constructor; [| now apply IH].
  intros Hin. apply Hx. apply in_map_iff in Hin.
  destruct Hin as [r [Hr Hin]]. apply filter_In in Hin.
  apply in_map_iff. exists r. tauto.
Qed.

Lemma filter_lastRows_inserted (ps : list db.Page) :
  filter (fun x => negb (db_handle.hasUID (db.uid x) ps))
         (db_handle.lastRows ps) = [].
Proof.
  assert (H : forall l,
             (forall r, In r l -> db_handle.hasUID (db.uid r) ps = true) ->
             filter (fun x => negb (db_handle.hasUID (db.uid x) ps)) l = []).
  { induction l as [| x l IH]; intros Hl; [reflexivity |].
    cbn. rewrite (Hl x (or_introl eq_refl)). cbn.
    apply IH. intros r Hr. apply Hl. now right. }
  apply H. apply lastRows_uids_in.
Qed.

(** X1.  A second export into the embedded store changes nothing: after
    the pages [ps] have been inserted into a database opened by [InitDB],
    the handle closed and the database opened again, the database is as
    the first run left it, and inserting the same pages once more leaves
    it exactly so. *)
Theorem store_rerun_is_idempotent (f : db.File) (d : db.DB)
    (ps : list db.Page) :
  db.InitDB f = inr d ->
  exists d1 d2,
    db_handle.insertAll d ps = (None, d1) /\
    db_handle.CloseDB (Some d1) = Some d2 /\
    db.InitDB (db_handle.stored d2) = inr d1 /\
    db_handle.insertAll d1 ps = (None, d1).
Proof.
  intros Hinit. destruct (InitDB_open _ _ Hinit) as [Hc [l Hp]].
  eexists. eexists. split; [apply (insertAll_rows ps d l Hc Hp) |].
  split; [reflexivity |]. split; [reflexivity |].
  erewrite insertAll_rows; [| reflexivity | reflexivity].
  do 3 f_equal.
  rewrite filter_app, filter_twice, filter_lastRows_inserted, app_nil_r.
  f_equal. apply filter_ext. intros x.
  now destruct (db_handle.hasUID (db.uid x) ps).
Qed.

Lemma store_rerun_is_idempotent_witness :
  exists d1 d2,
    db_handle.insertAll {| db.closed := false; db.pages := Some [] |}
      [ {| db.Title := "Home"; db.Body := "draft"; db.Link := "/home"; db.UID := "u1" |};
        {| db.Title := "News"; db.Body := "hello"; db.Link := "/news"; db.UID := "u2" |};
        {| db.Title := "Home"; db.Body := "final"; db.Link := "/home"; db.UID := "u1" |} ]
    = (None, d1) /\
    db_handle.CloseDB (Some d1) = Some d2 /\
    db.InitDB (db_handle.stored d2) = inr d1 /\
    db_handle.insertAll d1
      [ {| db.Title := "Home"; db.Body := "draft"; db.Link := "/home"; db.UID := "u1" |};
        {| db.Title := "News"; db.Body := "hello"; db.Link := "/news"; db.UID := "u2" |};
        {| db.Title := "Home"; db.Body := "final"; db.Link := "/home"; db.UID := "u1" |} ]
    = (None, d1).
Proof.
  apply (store_rerun_is_idempotent (db.Database None)). reflexivity.
Defined.

Lemma lastRows_last (before after : list db.Page) (q : db.Page) :
  db_handle.hasUID (db.UID q) after = false ->
  filter (fun x => String.eqb (db.uid x) (db.UID q))
         (db_handle.lastRows (before ++ q :: after))
  = [db_handle.rowOf q].
Proof.
  intros Hafter. induction before as [| b before IH].
  - cbn [app db_handle.lastRows]. rewrite Hafter. cbn.
    rewrite String.eqb_refl. f_equal. now apply hasUID_false_filter.
  - cbn [app db_handle.lastRows].
    destruct (db_handle.hasUID (db.UID b) (before ++ q :: after)) eqn:Hb;
      [exact IH |].
    cbn. destruct (String.eqb (db.UID b) (db.UID q)) eqn:E; [| exact IH].
    exfalso. apply String.eqb_eq in E. rewrite E in Hb.
    unfold db_handle.hasUID in Hb. rewrite existsb_app in Hb. cbn in Hb.
    rewrite String.eqb_refl in Hb. rewrite orb_true_r in Hb. discriminate Hb.
Qed.

(** X2.  The store keeps the last write of every page: after the pages
    [ps] have been inserted into a database opened by [InitDB], the table
    holds, for every page of [ps] that no later page of [ps] shares its
    [uid] with, exactly one row of that [uid], the row of that page; and
    the rows of a [uid] that no page of [ps] has are as they were. *)
Theorem store_keeps_last_row_per_uid (f : db.File) (d : db.DB)
    (ps : list db.Page) :
  db.InitDB f = inr d ->
  exists d1,
    db_handle.insertAll d ps = (None, d1) /\
    (forall before q after,
        ps = before ++ q :: after ->
        db_handle.hasUID (db.UID q) after = false ->
        db.rowsWithUID d1 (db.UID q) = [db_handle.rowOf q]) /\
    (forall u,
        db_handle.hasUID u ps = false ->
        db.rowsWithUID d1 u = db.rowsWithUID d u).
Proof.
  intros Hinit. destruct (InitDB_open _ _ Hinit) as [Hc [l Hp]].
  eexists. split; [apply (insertAll_rows ps d l Hc Hp) |].
  unfold db.rowsWithUID. cbn [db.pages]. rewrite Hp. split.
  - intros before q after -> Hafter.
    rewrite filter_app, (lastRows_last before after q Hafter).
    rewrite filter_twice.
    replace (filter _ l) with (@nil db.Row); [reflexivity |].
    symmetry. rewrite <- (filter_false l). apply filter_ext. intros x.
    destruct (String.eqb (db.uid x) (db.UID q)) eqn:E;
      [| now rewrite andb_false_r].
    apply String.eqb_eq in E. rewrite E.
    unfold db_handle.hasUID. rewrite existsb_app. cbn.
    rewrite String.eqb_refl. now rewrite orb_true_r.
  - intros u Hu. rewrite filter_app, (hasUID_false_filter u ps Hu), app_nil_r.
    rewrite filter_twice. apply filter_ext. intros x.
    destruct (String.eqb (db.uid x) u) eqn:E; [| now rewrite andb_false_r].
    apply String.eqb_eq in E. now rewrite E, Hu.
Qed.

Lemma store_keeps_last_row_per_uid_witness :
  exists d1,
    db_handle.insertAll {| db.closed := false; db.pages := Some [] |}
      [ {| db.Title := "Home"; db.Body := "draft"; db.Link := "/home"; db.UID := "u1" |};
        {| db.Title := "News"; db.Body := "hello"; db.Link := "/news"; db.UID := "u2" |};
        {| db.Title := "Home"; db.Body := "final"; db.Link := "/home"; db.UID := "u1" |} ]
    = (None, d1) /\
    db.rowsWithUID d1 "u1"
    = [ {| db.uid := "u1"; db.title := "Home"; db.body := "final"; db.link := "/home" |} ] /\
    db.rowsWithUID d1 "u3" = [].
Proof.
  destruct (store_keeps_last_row_per_uid (db.Database None)
              {| db.closed := false; db.pages := Some [] |}
              [ {| db.Title := "Home"; db.Body := "draft"; db.Link := "/home"; db.UID := "u1" |};
                {| db.Title := "News"; db.Body := "hello"; db.Link := "/news"; db.UID := "u2" |};
                {| db.Title := "Home"; db.Body := "final"; db.Link := "/home"; db.UID := "u1" |} ]
              eq_refl) as [d1 [Hrun [Hlast Hother]]].
  exists d1. split; [exact Hrun |]. split.
  - apply (Hlast
             [ {| db.Title := "Home"; db.Body := "draft"; db.Link := "/home"; db.UID := "u1" |};
               {| db.Title := "News"; db.Body := "hello"; db.Link := "/news"; db.UID := "u2" |} ]
             {| db.Title := "Home"; db.Body := "final"; db.Link := "/home"; db.UID := "u1" |}
             []); reflexivity.
  - apply (Hother "u3"). reflexivity.
Defined.

(** X3.  The primary key is an invariant of the store: when no two rows
    of the database opened by [InitDB] share a [uid], no two rows share
    one after any sequence of [InsertPage]. *)
Theorem store_primary_key_invariant (f : db.File) (d : db.DB)
    (ps : list db.Page) :
  db.InitDB f = inr d ->
  db_handle.keyed d ->
  db_handle.keyed (snd (db_handle.insertAll d ps)).
Proof.
  intros Hinit Hkey. destruct (InitDB_open _ _ Hinit) as [Hc [l Hp]].
  rewrite (insertAll_rows ps d l Hc Hp).
  unfold db_handle.keyed, db_handle.rows in *. cbn [snd db.pages].
  rewrite Hp in Hkey. rewrite map_app. apply NoDup_app.
  - now apply map_uid_filter_NoDup.
  - apply lastRows_NoDup.
  - intros u Hl Hr. apply in_map_iff in Hl. destruct Hl as [x [<- Hx]].
    apply filter_In in Hx. destruct Hx as [_ Hx].
    apply in_map_iff in Hr. destruct Hr as [r [Hu Hr]].
    apply lastRows_uids_in in Hr. rewrite Hu in Hr. rewrite Hr in Hx.
    discriminate Hx.
Qed.

Lemma store_primary_key_invariant_witness :
  db_handle.keyed
    (snd (db_handle.insertAll {| db.closed := false; db.pages := Some [] |}
            [ {| db.Title := "Home"; db.Body := "draft"; db.Link := "/home"; db.UID := "u1" |};
              {| db.Title := "Home"; db.Body := "final"; db.Link := "/home"; db.UID := "u1" |} ])).
Proof.
  apply (store_primary_key_invariant (db.Database None)).
  - reflexivity.
  - constructor.
Defined.

(** X4.  [InsertPage] on a handle that [CloseDB] has closed, or on a
    database in which the table does not exist, returns an error that
    starts with [failed to insert/update page: ] and leaves the handle
    and the rows as they were. *)
Theorem InsertPage_unusable_handle (d : db.DB) (page : db.Page) :
  (forall h, db_handle.CloseDB (Some h) = Some d ->
     exists err,
       db.InsertPage d page
       = (Some ("failed to insert/update page: " ++ err)%string, d)) /\
  (db.pages d = None ->
     exists err,
       db.InsertPage d page
       = (Some ("failed to insert/update page: " ++ err)%string, d)).
Proof.
  unfold db.InsertPage, db.Exec_InsertOrReplace. split.
  - intros h H. injection H as <-. cbn. eauto.
  - intros Hp. rewrite Hp. destruct (db.closed d); eauto.
Qed.

Lemma InsertPage_unusable_handle_witness :
  (exists err,
      db.InsertPage {| db.closed := true; db.pages := Some [] |}
        {| db.Title := "Home"; db.Body := "draft"; db.Link := "/home"; db.UID := "u1" |}
      = (Some ("failed to insert/update page: " ++ err)%string,
         {| db.closed := true; db.pages := Some [] |})) /\
  (exists err,
      db.InsertPage {| db.closed := false; db.pages := None |}
        {| db.Title := "Home"; db.Body := "draft"; db.Link := "/home"; db.UID := "u1" |}
      = (Some ("failed to insert/update page: " ++ err)%string,
         {| db.closed := false; db.pages := None |})).
Proof.
  split.
  - apply (proj1 (InsertPage_unusable_handle
                    {| db.closed := true; db.pages := Some [] |} _)
                 {| db.closed := false; db.pages := Some [] |}).
    reflexivity.
  - apply (proj2 (InsertPage_unusable_handle
                    {| db.closed := false; db.pages := None |} _)).
    reflexivity.
Defined.

Lemma plain_insertAll_rows (ps : list db.Page) :
  forall (d : db.DB) (l : list db.Row),
    db.closed d = false -> db.pages d = Some l ->
    db_plain.insertAll d ps
    = (None,
       {| db.closed := false;
          db.pages := Some (l ++ map db_handle.rowOf ps) |}).
Proof.
  induction ps as [| q ps IH]; intros d l Hc Hp.
  - cbn. rewrite app_nil_r. destruct d as [cl pg]; cbn in *. now subst.
  - cbn [db_plain.insertAll]. unfold db_plain.InsertPage, db_plain.Exec_Insert.
    rewrite Hc, Hp. erewrite IH; [| reflexivity | reflexivity].
    cbn [map]. now rewrite <- app_assoc.
Qed.

Lemma plain_InitDB_open (f : db.File) (d : db.DB) :
  db_plain.InitDB f = inr d ->
  db.closed d = false /\ exists l, db.pages d = Some l.
Proof.
  unfold db_plain.InitDB, db.sql_Open, db_plain.Exec_CreateTableIfNotExists.
  destruct f as [reason | [l |]]; cbn; intros H; try discriminate;
    injection H as <-; cbn; eauto.
Qed.

(** X5.  In the revision of the store without a primary key, every
    [InsertPage] adds a row: a second export of the same pages leaves
    each of them twice in the table. *)
Theorem plain_store_rerun_duplicates (f : db.File) (d : db.DB)
    (ps : list db.Page) :
  db_plain.InitDB f = inr d ->
  exists d1 d2,
    db_plain.insertAll d ps = (None, d1) /\
    db_plain.insertAll d1 ps = (None, d2) /\
    db_handle.rows d2
    = db_handle.rows d ++ map db_handle.rowOf ps ++ map db_handle.rowOf ps /\
    length (db_handle.rows d2) = length (db_handle.rows d) + 2 * length ps.
Proof.
  intros Hinit. destruct (plain_InitDB_open _ _ Hinit) as [Hc [l Hp]].
  eexists. eexists. split; [apply (plain_insertAll_rows ps d l Hc Hp) |].
  split; [apply plain_insertAll_rows; reflexivity |].
  unfold db_handle.rows. cbn [db.pages]. rewrite Hp.
  split; [now rewrite <- app_assoc |].
  rewrite !length_app, !length_map. lia.
Qed.

Lemma plain_store_rerun_duplicates_witness :
  exists d1 d2,
    db_plain.insertAll {| db.closed := false; db.pages := Some [] |}
      [ {| db.Title := "Home"; db.Body := "draft"; db.Link := "/home"; db.UID := "u1" |} ]
    = (None, d1) /\
    db_plain.insertAll d1
      [ {| db.Title := "Home"; db.Body := "draft"; db.Link := "/home"; db.UID := "u1" |} ]
    = (None, d2) /\
    db.rowsWithUID d2 "u1"
    = [ {| db.uid := "u1"; db.title := "Home"; db.body := "draft"; db.link := "/home" |};
        {| db.uid := "u1"; db.title := "Home"; db.body := "draft"; db.link := "/home" |} ].
Proof.
  destruct (plain_store_rerun_duplicates (db.Database None)
              {| db.closed := false; db.pages := Some [] |}
              [ {| db.Title := "Home"; db.Body := "draft"; db.Link := "/home"; db.UID := "u1" |} ]
              eq_refl) as [d1 [d2 [H1 [H2 [Hrows _]]]]].
  exists d1, d2. split; [exact H1 |]. split; [exact H2 |].
  unfold db.rowsWithUID. unfold db_handle.rows in Hrows.
  destruct (db.pages d2) as [l |]; [| discriminate Hrows].
  rewrite Hrows. reflexivity.
Defined.

(** ** getSafeFilename, continued *)

Lemma safeByte_fixed (b : ascii) : safeByte b = b <-> isHostile b = false.
Proof.
  split.
  - intros H. rewrite <- H. apply safeByte_not_hostile.
  - intros H. unfold safeByte. now rewrite H.
Qed.

(** X6.  The names [getSafeFilename] leaves unchanged are exactly those
    without a hostile byte; every other title shares its file name with a
    different title (its own safe name), so that two pages can be written
    to the same file. *)
Theorem getSafeFilename_fixed_points (title : string) :
  (exporter.getSafeFilename title = title <->
   forall i c, String.get i title = Some c -> ~ In c hostile) /\
  (exporter.getSafeFilename title <> title ->
   exists other,
     other <> title /\
     exporter.getSafeFilename other = exporter.getSafeFilename title).
Proof.
  split.
  - induction title as [| b s IH]; [split; [intros _ i c H; destruct i; discriminate H | reflexivity] |].
    rewrite getSafeFilename_cons. split.
    + intros H. injection H as Hb Hs. intros [| i] c Hget; cbn in Hget.
      * injection Hget as <-. intros Hin. apply isHostile_In in Hin.
        apply safeByte_fixed in Hb. congruence.
      * apply (proj1 IH Hs i c Hget).
    + intros H. f_equal.
      * apply safeByte_fixed. destruct (isHostile b) eqn:Hb; [| reflexivity].
        exfalso. apply (H 0 b eq_refl). now apply isHostile_In.
      * apply IH. intros i c Hget. apply (H (S i) c Hget).
  - intros Hne. exists (exporter.getSafeFilename title). split; [exact Hne |].
    clear Hne. induction title as [| b s IH]; [reflexivity |].
    rewrite !getSafeFilename_cons. now rewrite safeByte_idempotent, IH.
Qed.

Lemma getSafeFilename_fixed_points_witness :
  exporter.getSafeFilename "Release-notes_2024" = "Release-notes_2024" /\
  exists other,
    other <> "a/b" /\
    exporter.getSafeFilename other = exporter.getSafeFilename "a/b".
Proof.
  split.
  - apply (proj1 (getSafeFilename_fixed_points "Release-notes_2024")).
    intros i c Hget Hin. apply isHostile_In in Hin.
    do 18 (destruct i as [| i]; [injection Hget as <-; discriminate Hin |]).
    destruct i; discriminate Hget.
  - apply (proj2 (getSafeFilename_fixed_points "a/b")). discriminate.
Defined.

(** X7.  [getSafeFilename] works byte by byte: the safe name of a
    concatenation is the concatenation of the safe names. *)
Theorem getSafeFilename_app (s t : string) :
  exporter.getSafeFilename (s ++ t)
  = (exporter.getSafeFilename s ++ exporter.getSafeFilename t)%string.
Proof.
  induction s as [| b s IH]; [reflexivity |].
  cbn [String.append]. rewrite !getSafeFilename_cons.
  cbn [String.append]. now rewrite IH.
Qed.

(** ** LoadConfig *)

(** X8.  A configuration returned by [LoadConfig] is the one decoded from
    the file, except that an empty output type has become [file] and an
    empty output directory [./output]: neither is ever empty, a value
    given in the file is kept, and no other setting is touched (space key
    and page id have no default). *)
Theorem LoadConfig_fills_output_defaults
    (os_ReadFile : string -> error + string)
    (json_Unmarshal : string -> error + config.Config)
    (path : string) (cfg : config.Config) :
  config.LoadConfig os_ReadFile json_Unmarshal path = inr cfg ->
  exists file raw,
    os_ReadFile path = inr file /\
    json_Unmarshal file = inr raw /\
    config.OutputType (config.Export cfg)
    = (if String.eqb (config.OutputType (config.Export raw)) EmptyString
       then "file" else config.OutputType (config.Export raw)) /\
    config.OutputDir (config.Export cfg)
    = (if String.eqb (config.OutputDir (config.Export raw)) EmptyString
       then "./output" else config.OutputDir (config.Export raw)) /\
    config.OutputType (config.Export cfg) <> EmptyString /\
    config.OutputDir (config.Export cfg) <> EmptyString /\
    config.Confluence cfg = config.Confluence raw /\
    config.Logging cfg = config.Logging raw /\
    config.SpaceKey (config.Export cfg) = config.SpaceKey (config.Export raw) /\
    config.PageID (config.Export cfg) = config.PageID (config.Export raw) /\
    config.Recursive (config.Export cfg) = config.Recursive (config.Export raw) /\
    config.IncludeAttachments (config.Export cfg)
    = config.IncludeAttachments (config.Export raw) /\
    config.ConcurrentRequests (config.Export cfg)
    = config.ConcurrentRequests (config.Export raw) /\
    config.Format (config.Export cfg) = config.Format (config.Export raw).
Proof.
  unfold config.LoadConfig. intros H.
  destruct (os_ReadFile path) as [e | file] eqn:Hread; [discriminate H |].
  destruct (json_Unmarshal file) as [e | raw] eqn:Hparse; [discriminate H |].
  exists file, raw. split; [reflexivity |]. split; [exact Hparse |].
  clear Hread Hparse.
  cbv zeta in H. injection H as <-.
  destruct raw as [cf [sk pid od ot rc ia cr fm] lg]. cbn.
  destruct (String.eqb ot EmptyString) eqn:Eot;
    destruct (String.eqb od EmptyString) eqn:Eod; cbn; rewrite ?Eod;
    cbn; repeat split; try discriminate;
    try (intros ->; cbn in *; discriminate).
Qed.

Lemma LoadConfig_fills_output_defaults_witness :
  config.LoadConfig fixtures.readFile fixtures.unmarshal "bare.json"
  = inr (fixtures.exportConfig "file" "./output") /\
  exists raw,
    fixtures.unmarshal "bare.json" = inr raw /\
    config.OutputType (config.Export raw) = EmptyString /\
    config.SpaceKey (config.Export raw) = "TEAM".
Proof.
  split; [reflexivity |].
  destruct (LoadConfig_fills_output_defaults fixtures.readFile
              fixtures.unmarshal "bare.json"
              (fixtures.exportConfig "file" "./output") eq_refl)
    as [file [raw [Hread [Hparse [Htype [_ [_ [_ [_ [_ [Hkey _]]]]]]]]]]].
  exists raw. cbn in Hread. injection Hread as <-.
  split; [exact Hparse |]. split.
  - cbn in Hparse. injection Hparse as <-. reflexivity.
  - rewrite <- Hkey. reflexivity.
Defined.

(** ** The listings, continued *)

Section Requests.

Context `{Ext : Externals}.

(* One request and its decoding: what it does to the world. *)
Lemma fetchWith_world {R : Type} (c : api.ConfluenceClient)
    (endpoint : string) (params : Values) (decode : Body -> error + R)
    (w : World) :
  (exists e, fetchWith c endpoint params decode w = (Err e, w)) \/
  (exists req r, fetchWith c endpoint params decode w = (r, sent req w) /\
                 r <> Hang).
Proof.
  unfold fetchWith, bind. rewrite sendRequest_eq.
  destruct (buildRequest c "GET" endpoint (Some params) None) as [e | req].
  - left. now exists e.
  - right. exists req.
    destruct (Do (api.HTTPClient c) req) as [e | resp].
    + eexists. split; [reflexivity | discriminate].
    + destruct (decode (RespBody resp)) as [e | page]; cbn;
        eexists; (split; [reflexivity | discriminate]).
Qed.

Lemma fetchWith_Ok_sent {R : Type} (c : api.ConfluenceClient)
    (endpoint : string) (params : Values) (decode : Body -> error + R)
    (w w' : World) (page : R) :
  fetchWith c endpoint params decode w = (Ok page, w') ->
  exists req, w' = sent req w.
Proof.
  intros H. destruct (fetchWith_world c endpoint params decode w)
    as [[e He] | [req [r [Hr _]]]]; rewrite H in *.
  - discriminate He.
  - exists req. congruence.
Qed.

(* The loop: one request per page, and every page but the last brings
   at least [limit] records. *)
Lemma pageLoop_request_bound {R A : Type} (limit : Z)
    (fetch : Z -> M (listing R)) (conv : R -> A) :
  (forall start w page w',
      fetch start w = (Ok page, w') -> exists req, w' = sent req w) ->
  forall fuel start all w res w',
    api.pageLoop fuel limit fetch conv start all w = (Ok res, w') ->
    exists n,
      length (requests w') = length (requests w) + S n /\
      (len all + limit * Z.of_nat n <= len res)%Z.
Proof.
  intros Hfetch. induction fuel as [| fuel IH]; intros start all w res w' H.
  - discriminate H.
  - cbn [api.pageLoop] in H. unfold bind in H.
    destruct (fetch start w) as [[page | e |] w1] eqn:Hf; try discriminate H.
    destruct (Hfetch _ _ _ _ Hf) as [req ->].
    destruct (len (Results page) <? limit)%Z eqn:Hshort.
    + injection H as <- <-. exists 0. cbn. rewrite length_app. cbn.
      split; [lia |]. unfold len. rewrite length_app. lia.
    + apply IH in H. destruct H as [n [Hreq Hlen]].
      exists (S n). cbn [requests sent] in Hreq.
      rewrite length_app in Hreq. cbn in Hreq. split; [lia |].
      apply Z.ltb_ge in Hshort. unfold len in *.
      rewrite length_app, length_map in Hlen. lia.
Qed.

(** X9.  A listing never asks for more than it needs: a call of
    [GetSpaces], [GetPages] or [GetChildPages] that returns [k] records
    has sent [n + 1] requests with [25 * n <= k], at least one and at
    most [k / 25 + 1]. *)
Theorem listings_request_count (c : api.ConfluenceClient) (fuel : nat)
    (w w' : World) :
  (forall spaces,
      api.GetSpaces fuel c w = (Ok spaces, w') ->
      exists n, length (requests w') = length (requests w) + S n /\
                25 * n <= length spaces) /\
  (forall spaceKey pages,
      api.GetPages fuel c spaceKey w = (Ok pages, w') ->
      exists n, length (requests w') = length (requests w) + S n /\
                25 * n <= length pages) /\
  (forall parentPageID pages,
      api.GetChildPages fuel c parentPageID w = (Ok pages, w') ->
      exists n, length (requests w') = length (requests w) + S n /\
                25 * n <= length pages).
Proof.
  split; [| split].
  - intros spaces H. unfold api.GetSpaces in H.
    apply pageLoop_request_bound in H.
    + destruct H as [n [Hreq Hlen]]. exists n. split; [exact Hreq |].
      unfold len in Hlen. cbn [length] in Hlen. lia.
    + intros start w0 page w1. rewrite fetchSpaces_eq. apply fetchWith_Ok_sent.
  - intros spaceKey pages H. unfold api.GetPages in H.
    apply pageLoop_request_bound in H.
    + destruct H as [n [Hreq Hlen]]. exists n. split; [exact Hreq |].
      unfold len in Hlen. cbn [length] in Hlen. lia.
    + intros start w0 page w1. rewrite fetchPages_eq. apply fetchWith_Ok_sent.
  - intros parentPageID pages H. unfold api.GetChildPages in H.
    apply pageLoop_request_bound in H.
    + destruct H as [n [Hreq Hlen]]. exists n. split; [exact Hreq |].
      unfold len in Hlen. cbn [length] in Hlen. lia.
    + intros start w0 page w1. rewrite fetchChildPages_eq.
      apply fetchWith_Ok_sent.
Qed.

(* The listings write nothing but requests. *)
Lemma pageLoop_frame {R A : Type} (limit : Z)
    (fetch : Z -> M (listing R)) (conv : R -> A) :
  (forall start w r w',
      fetch start w = (r, w') ->
      logs w' = logs w /\ saves w' = saves w /\ sink w' = sink w) ->
  forall fuel start all w r w',
    api.pageLoop fuel limit fetch conv start all w = (r, w') ->
    logs w' = logs w /\ saves w' = saves w /\ sink w' = sink w.
Proof.
  intros Hfetch. induction fuel as [| fuel IH]; intros start all w r w' H.
  - injection H as _ <-. auto.
  - cbn [api.pageLoop] in H. unfold bind in H.
    destruct (fetch start w) as [[page | e |] w1] eqn:Hf;
      try (injection H as _ <-; now apply (Hfetch _ _ _ _ Hf)).
    destruct (Hfetch _ _ _ _ Hf) as [Hl [Hs Hk]].
    destruct (len (Results page) <? limit)%Z.
    + injection H as _ <-. auto.
    + apply IH in H. destruct H as [Hl' [Hs' Hk']].
      repeat split; congruence.
Qed.

Lemma fetchWith_frame {R : Type} (c : api.ConfluenceClient)
    (endpoint : string) (params : Values) (decode : Body -> error + R)
    (w w' : World) (r : result R) :
  fetchWith c endpoint params decode w = (r, w') ->
  logs w' = logs w /\ saves w' = saves w /\ sink w' = sink w.
Proof.
  intros H. destruct (fetchWith_world c endpoint params decode w)
    as [[e He] | [req [r' [Hr _]]]]; rewrite H in *.
  - injection He as _ <-. auto.
  - injection Hr as _ ->. auto.
Qed.

Lemma GetPages_frame (c : api.ConfluenceClient) (fuel : nat)
    (spaceKey : string) (w w' : World) (r : result (list models.Page)) :
  api.GetPages fuel c spaceKey w = (r, w') ->
  logs w' = logs w /\ saves w' = saves w /\ sink w' = sink w.
Proof.
  unfold api.GetPages. apply pageLoop_frame.
  intros start w0 r0 w1. rewrite fetchPages_eq. apply fetchWith_frame.
Qed.

(** X10.  When [GetPages] fails, [exportSpace] returns its error behind
    [failed to fetch pages: ] and saves nothing: [SavePage] is not
    called, the sink is as it was, and the only line logged is the one
    that announces the fetch. *)
Theorem exportSpace_fetch_failure (fuel : nat) (c : api.ConfluenceClient)
    (spaceKey : string) (h : output.Handler) (w w1 : World) (e : error) :
  api.GetPages fuel c spaceKey
    (logged ("🔍 Fetching pages from space: " ++ spaceKey) w) = (Err e, w1) ->
  exporter.exportSpace fuel c spaceKey h w
  = (Err ("failed to fetch pages: " ++ e)%string, w1) /\
  saves w1 = saves w /\
  sink w1 = sink w /\
  logs w1 = logs w ++ [("🔍 Fetching pages from space: " ++ spaceKey)%string].
Proof.
  intros H. split.
  - unfold exporter.exportSpace. unfold bind at 1. unfold log_Printf at 1.
    unfold bind at 1. unfold wrapErr. now rewrite H.
  - apply GetPages_frame in H. cbn in H. tauto.
Qed.

End Requests.

Lemma listings_request_count_witness :
  exists n,
    length (requests (snd (api.GetPages 2 (demo.client demo.teamServer)
                             "TEAM" demo.w0)))
    = length (requests demo.w0) + S n /\
    25 * n <= length (map api.spacePage demo.teamRecords).
Proof.
  apply (proj1 (proj2 (listings_request_count
                         (demo.client demo.teamServer) 2 demo.w0
                         (snd (api.GetPages 2 (demo.client demo.teamServer)
                                 "TEAM" demo.w0)))) "TEAM").
  vm_compute. reflexivity.
Defined.

Lemma exportSpace_fetch_failure_witness :
  fst (exporter.exportSpace 2 (demo.client demo.failingServer) "TEAM"
         demo.picky demo.w0)
  = Err "failed to fetch pages: net/http: timeout awaiting response headers".
Proof.
  rewrite (proj1 (exportSpace_fetch_failure 2
                    (demo.client demo.failingServer) "TEAM" demo.picky demo.w0
                    (snd (api.GetPages 2 (demo.client demo.failingServer) "TEAM"
                            (logged "🔍 Fetching pages from space: TEAM" demo.w0)))
                    "net/http: timeout awaiting response headers"
                    ltac:(vm_compute; reflexivity))).
  reflexivity.
Defined.

(** ** The tree walk, continued *)

Section TreeOrder.

Context `{Ext : Externals}.

Lemma parentedFrom_incl (l : list models.Page) :
  forall seen seen',
    incl seen seen' -> parentedFrom seen l -> parentedFrom seen' l.
Proof.
  induction l as [| page l IH]; intros seen seen' Hincl H; [exact I |].
  destruct H as [Hin Hrest]. split; [now apply Hincl |].
  apply (IH (seen ++ [models.ID page])); [| exact Hrest].
  apply incl_app; [apply incl_appl, Hincl | apply incl_appr, incl_refl].
Qed.

Lemma parentedFrom_app (l1 l2 : list models.Page) :
  forall seen,
    parentedFrom seen l1 ->
    parentedFrom (seen ++ map models.ID l1) l2 ->
    parentedFrom seen (l1 ++ l2).
Proof.
  induction l1 as [| page l1 IH]; intros seen H1 H2.
  - cbn in *. now rewrite app_nil_r in H2.
  - destruct H1 as [Hin Hrest]. split; [exact Hin |].
    apply IH; [exact Hrest |]. cbn in H2. now rewrite <- app_assoc.
Qed.

Lemma parentedFrom_parented (l : list models.Page) :
  forall seen, parentedFrom seen l -> parented seen l.
Proof.
  induction l as [| p l IH]; intros seen H before page after Heq.
  - destruct before; discriminate Heq.
  - destruct H as [Hin Hrest]. destruct before as [| b before].
    + injection Heq as <- _. cbn. now rewrite app_nil_r.
    + injection Heq as <- Heq. specialize (IH _ Hrest before page after Heq).
      cbn. now rewrite <- app_assoc in IH.
Qed.

(* The loop over the children, when the walk of each child returns the
   child first and then pages that come after their parent. *)
Lemma appendSubtrees_parented (walk : models.Page -> M (list models.Page))
    (parentPageID : string) (children : list models.Page) :
  Forall (fun child => models.ParentID child = parentPageID) children ->
  (forall child w res w',
      walk child w = (Ok res, w') ->
      exists rest, res = child :: rest /\
                   parentedFrom [models.ID child] rest) ->
  forall seen pages w res w',
    In parentPageID seen ->
    exporter.appendSubtrees walk children pages w = (Ok res, w') ->
    exists rest, res = pages ++ rest /\ parentedFrom seen rest.
Proof.
  intros Hpar Hwalk. induction Hpar as [| child children Hchild _ IH];
    intros seen pages w res w' Hseen H.
  - injection H as <- _. exists []. split; [now rewrite app_nil_r | exact I].
  - cbn [exporter.appendSubtrees] in H. unfold bind in H.
    destruct (walk child w) as [[subtree | e |] w1] eqn:Hw; try discriminate H.
    destruct (Hwalk _ _ _ _ Hw) as [rest_c [-> Hrest_c]].
    apply (IH (seen ++ map models.ID (child :: rest_c))) in H;
      [| apply in_or_app; now left].
    destruct H as [rest [-> Hrest]].
    exists ((child :: rest_c) ++ rest). split; [now rewrite app_assoc |].
    apply parentedFrom_app; [| exact Hrest].
    split; [now rewrite Hchild |].
    apply (parentedFrom_incl _ [models.ID child]); [| exact Hrest_c].
    apply incl_appr, incl_refl.
Qed.

Lemma GetChildPages_children (c : api.ConfluenceClient) (fuel : nat)
    (parentPageID : string) (w w' : World) (children : list models.Page) :
  api.GetChildPages fuel c parentPageID w = (Ok children, w') ->
  Forall (fun child => models.ParentID child = parentPageID) children.
Proof.
  intros H.
  apply (pageLoop_Forall _ 25 _ (api.childPage parentPageID)
           (fun r => eq_refl) fuel 0%Z [] w w' children (Forall_nil _) H).
Qed.

Lemma wrapErr_Ok {A : Type} (f : error -> error) (m : M A) (w w' : World)
    (a : A) :
  wrapErr f m w = (Ok a, w') -> m w = (Ok a, w').
Proof.
  unfold wrapErr. destruct (m w) as [[a' | e |] w1]; intros H;
    try discriminate H; exact H.
Qed.

Lemma collectChildPages_parented (c : api.ConfluenceClient) :
  forall fuel page w res w',
    exporter.collectChildPages fuel c page w = (Ok res, w') ->
    exists rest, res = page :: rest /\
                 parentedFrom [models.ID page] rest.
Proof.
  induction fuel as [| fuel IH]; intros page w res w' H; [discriminate H |].
  cbn [exporter.collectChildPages] in H. unfold bind in H.
  match type of H with
  | context [wrapErr ?f ?m w] =>
      destruct (wrapErr f m w) as [[children | e |] w1] eqn:Hlist
  end; try discriminate H.
  apply wrapErr_Ok, GetChildPages_children in Hlist.
  apply (appendSubtrees_parented _ (models.ID page) children Hlist IH
           [models.ID page]) in H; [| now left].
  destruct H as [rest [-> Hrest]]. exists rest. split; [reflexivity | exact Hrest].
Qed.

(** X11.  Whatever the server holds, a page list returned by
    [fetchPageTree] starts with the page that [GetPage] returned for the
    root id, and every page after it comes later than its parent: its
    [ParentID] is the [ID] of the root or of a page before it in the
    list.  The list is never empty. *)
Theorem fetchPageTree_parents_first (c : api.ConfluenceClient) (fuel : nat)
    (rootPageID : string) (w w' : World) (pages : list models.Page) :
  exporter.fetchPageTree fuel c rootPageID w = (Ok pages, w') ->
  exists root rest w1,
    api.GetPage c rootPageID w = (Ok root, w1) /\
    pages = root :: rest /\
    parented [models.ID root] rest.
Proof.
  intros H. unfold exporter.fetchPageTree in H. unfold bind at 1 in H.
  match type of H with
  | context [wrapErr ?f ?m w] =>
      destruct (wrapErr f m w) as [[root | e |] w1] eqn:Hroot
  end; try discriminate H.
  apply wrapErr_Ok in Hroot. unfold bind in H.
  match type of H with
  | context [wrapErr ?f ?m w1] =>
      destruct (wrapErr f m w1) as [[children | e |] w2] eqn:Hlist
  end; try discriminate H.
  apply wrapErr_Ok, GetChildPages_children in Hlist.
  apply (appendSubtrees_parented _ (models.ID root) children Hlist
           (collectChildPages_parented c fuel) [models.ID root]) in H;
    [| now left].
  destruct H as [rest [-> Hrest]].
  exists root, rest, w1. split; [exact Hroot |]. split; [reflexivity |].
  now apply parentedFrom_parented.
Qed.





End TreeOrder.

Lemma fetchPageTree_parents_first_witness :
  parented ["R"]
    [ api.childPage "R" (demo.record "A");
      api.childPage "A" (demo.record "A1");
      api.childPage "R" (demo.record "B") ].
Proof.
  destruct (fetchPageTree_parents_first (demo.client demo.treeServer) 3 "R"
              demo.w0
              (snd (exporter.fetchPageTree 3 (demo.client demo.treeServer)
                      "R" demo.w0))
              [ detailPage (demo.detail "R" []);
                api.childPage "R" (demo.record "A");
                api.childPage "A" (demo.record "A1");
                api.childPage "R" (demo.record "B") ]
              ltac:(vm_compute; reflexivity))
    as [root [rest [w1 [_ [Heq Hpar]]]]].
  injection Heq as Hroot Hrest. subst root rest. exact Hpar.
Defined.

Lemma brokenTreeServer_root :
  rootServed (demo.client fixtures.brokenTreeServer) "R"
    (demo.detail "R" ["HOME"; "P"]).
Proof. eexists. split; [reflexivity | eexists; split; reflexivity]. Defined.





(** ** GetPage and the attachments *)

Section Single.

Context `{Dec : attachments.Decoder}.

(** X13.  When the server answers the request for a page, [GetPage]
    returns it after that one request, with the id the answer carries and
    with the last of the ancestors in the answer, the nearest one, as
    [ParentID]; a page without ancestors gets an empty [ParentID]. *)
Theorem GetPage_parent_is_last_ancestor (c : api.ConfluenceClient)
    (pageID : string) (d : pageDetail) (w : World) :
  rootServed c pageID d ->
  exists page w',
    api.GetPage c pageID w = (Ok page, w') /\
    length (requests w') = S (length (requests w)) /\
    models.ID page = d_ID d /\
    (forall ancestors parent,
        d_Ancestors d = ancestors ++ [parent] ->
        models.ParentID page = parent) /\
    (d_Ancestors d = [] -> models.ParentID page = EmptyString).
Proof.
  intros [req [Hreq [resp [Hdo Hdec]]]].
  exists (detailPage d), (sent req w). split.
  - unfold api.GetPage, bind. cbv zeta. unfold Values_Add. cbn [app].
    rewrite sendRequest_eq, Hreq, Hdo, Hdec. reflexivity.
  - split; [cbn; rewrite length_app; cbn; lia |].
    split; [reflexivity |]. split.
    + intros ancestors parent Ha. cbn. rewrite Ha. unfold len.
      rewrite length_app. cbn [length].
      destruct (Z.ltb_spec 0 (Z.of_nat (length ancestors + 1))); [| lia].
      apply last_last.
    + intros Ha. cbn. now rewrite Ha.
Qed.

Lemma appendAttachments_map (results : list attachments.attachmentResult) :
  forall acc,
    attachments.appendAttachments results acc
    = acc ++ map attachments.attachmentOf results.
Proof.
  induction results as [| a rest IH]; intros acc; cbn.
  - now rewrite app_nil_r.
  - rewrite IH. now rewrite <- app_assoc.
Qed.

(** X14.  [GetAttachments] does not page: whatever the number of
    attachments, it sends at most one request and always returns.  When
    it succeeds it has sent exactly one, and it returns one attachment
    per result of that answer, in order, each with its title as file
    name. *)
Theorem GetAttachments_single_request (c : api.ConfluenceClient)
    (pageID : string) (w w' : World)
    (r : result (list attachments.Attachment)) :
  attachments.GetAttachments c pageID w = (r, w') ->
  r <> Hang /\
  length (requests w') <= S (length (requests w)) /\
  (forall atts,
      r = Ok atts ->
      exists req resp results,
        w' = sent req w /\
        Do (api.HTTPClient c) req = inr resp /\
        attachments.json_Decode_attachments (RespBody resp) = inr results /\
        atts = map attachments.attachmentOf results /\
        Forall (fun a => attachments.FileName a = attachments.Title a) atts).
Proof.
  unfold attachments.GetAttachments, bind. cbv zeta.
  rewrite sendRequest_eq.
  destruct (buildRequest c "GET" _ _ None) as [e | req].
  - intros H. injection H as <- <-. split; [discriminate |].
    split; [lia |]. intros atts Hr. discriminate Hr.
  - destruct (Do (api.HTTPClient c) req) as [e | resp] eqn:Hdo.
    + intros H. injection H as <- <-. split; [discriminate |].
      split; [cbn; rewrite length_app; cbn; lia |].
      intros atts Hr. discriminate Hr.
    + destruct (attachments.json_Decode_attachments (RespBody resp))
        as [e | results] eqn:Hdec; cbn.
      * intros H. injection H as <- <-. split; [discriminate |].
        split; [cbn; rewrite length_app; cbn; lia |].
        intros atts Hr. discriminate Hr.
      * intros H. injection H as <- <-. split; [discriminate |].
        split; [cbn; rewrite length_app; cbn; lia |].
        intros atts Hr. injection Hr as <-.
        exists req, resp, results. repeat split; try assumption.
        -- apply appendAttachments_map.
        -- rewrite appendAttachments_map. cbn.
           apply Forall_forall. intros a Ha. apply in_map_iff in Ha.
           destruct Ha as [x [<- _]]. reflexivity.
Qed.

End Single.

Lemma GetPage_parent_is_last_ancestor_witness :
  exists page w',
    api.GetPage (demo.client fixtures.brokenTreeServer) "R" demo.w0
    = (Ok page, w') /\
    length (requests w') = 1 /\
    models.ParentID page = "P".
Proof.
  destruct (GetPage_parent_is_last_ancestor
              (demo.client fixtures.brokenTreeServer) "R"
              (demo.detail "R" ["HOME"; "P"]) demo.w0 brokenTreeServer_root)
    as [page [w' [Hrun [Hreq [_ [Hparent _]]]]]].
  exists page, w'. split; [exact Hrun |]. split; [exact Hreq |].
  apply (Hparent ["HOME"]). reflexivity.
Defined.

Lemma GetAttachments_single_request_witness :
  length (requests (snd (attachments.GetAttachments (Dec := fixtures.decoder)
                           (demo.client fixtures.attachmentServer) "7"
                           demo.w0))) <= 1 /\
  exists atts,
    fst (attachments.GetAttachments (Dec := fixtures.decoder)
           (demo.client fixtures.attachmentServer) "7" demo.w0)
    = Ok atts /\
    length atts = 3 /\
    Forall (fun a => attachments.FileName a = attachments.Title a) atts.
Proof.
  destruct (GetAttachments_single_request (Dec := fixtures.decoder)
              (demo.client fixtures.attachmentServer) "7"
              demo.w0
              (snd (attachments.GetAttachments (Dec := fixtures.decoder)
                      (demo.client fixtures.attachmentServer) "7" demo.w0))
              (fst (attachments.GetAttachments (Dec := fixtures.decoder)
                      (demo.client fixtures.attachmentServer) "7" demo.w0))
              ltac:(vm_compute; reflexivity))
    as [_ [Hreq Hok]].
  split; [exact Hreq |].
  eexists. split; [vm_compute; reflexivity |].
  split; [reflexivity |].
  destruct (Hok _ ltac:(vm_compute; reflexivity))
    as [req [resp [results [_ [_ [_ [_ Hnames]]]]]]].
  exact Hnames.
Defined.

(** ** The entry point *)

Section EntryPoint.

Context `{Ext : Externals}.

Lemma framed_wrapErr {A : Type} (f : error -> error) (m : M A) :
  framed m -> framed (wrapErr f m).
Proof.
  intros Hm w r w' H. unfold wrapErr in H.
  destruct (m w) as [[a | e |] w1] eqn:E; injection H as _ <-;
    apply (Hm _ _ _ E).
Qed.

Lemma framed_bind {A B : Type} (m : M A) (k : A -> M B) :
  framed m -> (forall a, framed (k a)) -> framed (bind m k).
Proof.
  intros Hm Hk w r w' H. unfold bind in H.
  destruct (m w) as [[a | e |] w1] eqn:E.
  - destruct (Hm _ _ _ E) as [Hl [Hs Hk1]].
    destruct (Hk a _ _ _ H) as [Hl' [Hs' Hk']]. repeat split; congruence.
  - injection H as _ <-. apply (Hm _ _ _ E).
  - injection H as _ <-. apply (Hm _ _ _ E).
Qed.

Lemma framed_GetChildPages (c : api.ConfluenceClient) (fuel : nat)
    (parentPageID : string) :
  framed (api.GetChildPages fuel c parentPageID).
Proof.
  intros w r w'. unfold api.GetChildPages. apply pageLoop_frame.
  intros start w0 r0 w1. rewrite fetchChildPages_eq. apply fetchWith_frame.
Qed.

Lemma framed_GetSpaces (c : api.ConfluenceClient) (fuel : nat) :
  framed (api.GetSpaces fuel c).
Proof.
  intros w r w'. unfold api.GetSpaces. apply pageLoop_frame.
  intros start w0 r0 w1. rewrite fetchSpaces_eq. apply fetchWith_frame.
Qed.

Lemma framed_GetPage (c : api.ConfluenceClient) (pageID : string) :
  framed (api.GetPage c pageID).
Proof.
  intros w r w' H. unfold api.GetPage, bind in H. cbv zeta in H.
  rewrite sendRequest_eq in H.
  destruct (buildRequest c "GET" _ _ None) as [e | req];
    [injection H as _ <-; auto |].
  destruct (Do (api.HTTPClient c) req) as [e | resp];
    [injection H as _ <-; auto |].
  destruct (json_Decode_page (RespBody resp)) as [e | d]; cbn in H;
    injection H as _ <-; auto.
Qed.

Lemma framed_appendSubtrees (walk : models.Page -> M (list models.Page)) :
  (forall child, framed (walk child)) ->
  forall children pages, framed (exporter.appendSubtrees walk children pages).
Proof.
  intros Hwalk. induction children as [| child rest IH]; intros pages.
  - intros w r w' H. injection H as _ <-. auto.
  - cbn [exporter.appendSubtrees]. apply framed_bind; [apply Hwalk |].
    intros subtree. apply IH.
Qed.

Lemma framed_collectChildPages (c : api.ConfluenceClient) :
  forall fuel page, framed (exporter.collectChildPages fuel c page).
Proof.
  induction fuel as [| fuel IH]; intros page.
  - intros w r w' H. injection H as _ <-. auto.
  - cbn [exporter.collectChildPages]. apply framed_bind.
    + apply framed_wrapErr, framed_GetChildPages.
    + intros children. apply framed_appendSubtrees. apply IH.
Qed.

Lemma framed_fetchPageTree (c : api.ConfluenceClient) (fuel : nat)
    (rootPageID : string) :
  framed (exporter.fetchPageTree fuel c rootPageID).
Proof.
  unfold exporter.fetchPageTree. apply framed_bind.
  - apply framed_wrapErr, framed_GetPage.
  - intros rootPage. apply framed_bind.
    + apply framed_wrapErr, framed_GetChildPages.
    + intros children. apply framed_appendSubtrees.
      intros child. apply framed_collectChildPages.
Qed.

(* The loop over the pages of a tree: every page is counted and handed
   to the handler under its own space key, whatever the outcome. *)
Lemma savePageTree_counts (client : api.ConfluenceClient)
    (handler : driver.Handler) (pages : list models.Page) :
  forall progress w, exists w',
    driver.savePageTree client handler pages progress w
    = (Ok {| driver.totalPages := driver.totalPages progress;
             driver.processedPages :=
               (driver.processedPages progress + len pages)%Z |}, w') /\
    saves w' = saves w ++ treeSaves pages.
Proof.
  induction pages as [| page rest IH]; intros progress w.
  - exists w. cbn. rewrite app_nil_r. split; [| reflexivity].
    unfold ret. destruct progress as [t p]. cbn. do 3 f_equal. lia.
  - cbn [driver.savePageTree]. unfold bind at 1.
    unfold exporter.orElse, output.Handler_SavePage.
    destruct (output.SavePage (driver.sinkOf handler) client page
                (models.SpaceKey page) (sink w)) as [[err |] s1].
    + unfold log_Printf.
      match goal with
      | |- context [driver.savePageTree _ _ rest ?p ?w1] =>
          destruct (IH p w1) as [w' [Hrun Hsaves]]
      end.
      exists w'. rewrite Hrun. split.
      * cbn. do 3 f_equal. unfold len. cbn [length]. lia.
      * rewrite Hsaves. cbn. now rewrite <- app_assoc.
    + match goal with
      | |- context [driver.savePageTree _ _ rest ?p ?w1] =>
          destruct (IH p w1) as [w' [Hrun Hsaves]]
      end.
      exists w'. rewrite Hrun. split.
      * cbn. do 3 f_equal. unfold len. cbn [length]. lia.
      * rewrite Hsaves. cbn. now rewrite <- app_assoc.
Qed.

Lemma appendSubtrees_prefix (walk : models.Page -> M (list models.Page)) :
  forall children pages w res w',
    exporter.appendSubtrees walk children pages w = (Ok res, w') ->
    exists rest, res = pages ++ rest.
Proof.
  induction children as [| child rest IH]; intros pages w res w' H.
  - injection H as <- _. exists []. now rewrite app_nil_r.
  - cbn [exporter.appendSubtrees] in H. unfold bind in H.
    destruct (walk child w) as [[subtree | e |] w1]; try discriminate H.
    apply IH in H. destruct H as [more ->].
    exists (subtree ++ more). now rewrite app_assoc.
Qed.

Lemma fetchPageTree_cons (c : api.ConfluenceClient) (fuel : nat)
    (rootPageID : string) (w w' : World) (pages : list models.Page) :
  exporter.fetchPageTree fuel c rootPageID w = (Ok pages, w') ->
  exists root rest, pages = root :: rest.
Proof.
  intros H. unfold exporter.fetchPageTree in H. unfold bind at 1 in H.
  match type of H with
  | context [wrapErr ?f ?m w] =>
      destruct (wrapErr f m w) as [[root | e |] w1]
  end; try discriminate H.
  unfold bind in H.
  match type of H with
  | context [wrapErr ?f ?m w1] =>
      destruct (wrapErr f m w1) as [[children | e |] w2]
  end; try discriminate H.
  apply appendSubtrees_prefix in H. destruct H as [rest ->].
  exists root, rest. reflexivity.
Qed.

(** X15.  In page tree mode (a page id is configured) the final count of
    [main] is the number of pages of the tree, whether their saves
    succeeded or not: every page that [fetchPageTree] returned is counted
    and handed to [SavePage] once, in order, under its own space key;
    the configured space key plays no part.  [main] then ends normally,
    after [Close]. *)
Theorem main_tree_counts_every_page (env : driver.Env) (configPath : string)
    (cfg : config.Config) (handler : driver.Handler) (s1 : SinkState)
    (fuel : nat) (w : World) (pages : list models.Page) :
  ready env configPath cfg handler (sink w) s1 ->
  config.PageID (config.Export cfg) <> EmptyString ->
  (forall w0,
      fst (exporter.fetchPageTree fuel (clientOf env cfg)
             (config.PageID (config.Export cfg)) w0) = Ok pages) ->
  exists w',
    driver.main env configPath fuel w
    = (Ok {| driver.location := driver.locationMessage cfg;
             driver.label := "Total pages processed";
             driver.count := len pages |}, w') /\
    saves w' = saves w ++ treeSaves pages.
Proof.
  intros [Hload [Hlog [Hnew Hinit]]] Hpid Hfetch.
  unfold driver.main. rewrite Hload, Hlog, Hnew.
  fold (clientOf env cfg).
  apply String.eqb_neq in Hpid. rewrite Hpid. cbn [negb].
  unfold bind at 1. unfold log_Printf at 1.
  unfold bind at 1. unfold driver.orFatal at 1. unfold driver.Handler_Initialize.
  cbn [sink logged]. rewrite Hinit.
  unfold bind at 1. unfold bind at 1. unfold log_Printf at 1.
  unfold bind at 1. unfold driver.orFatal at 1.
  match goal with
  | |- context [exporter.fetchPageTree fuel ?c ?p ?w0] =>
      pose proof (Hfetch w0) as Hf;
      pose proof (framed_fetchPageTree c fuel p w0) as Hfr;
      pose proof (fetchPageTree_cons c fuel p w0) as Hcons;
      destruct (exporter.fetchPageTree fuel c p w0) as [[pages' | e' |] w1]
  end; cbn in Hf; try discriminate Hf.
  injection Hf as ->.
  destruct (Hfr _ _ eq_refl) as [_ [Hs _]].
  destruct (Hcons _ _ eq_refl) as [root [rest Hpages]].
  clear Hfetch Hfr Hcons. subst pages.
  unfold bind at 1. unfold log_Printf at 1. unfold bind at 1.
  match goal with
  | |- context [driver.savePageTree ?c ?h ?l ?p ?w2] =>
      destruct (savePageTree_counts c h l p w2) as [w3 [Hrun Hsaves]]
  end.
  rewrite Hrun. unfold bind at 1. unfold log_Printf at 1.
  unfold ret at 1. unfold bind at 1. unfold log_Printf at 1.
  unfold bind at 1. unfold driver.Handler_Close.
  destruct (driver.Close handler _) as [cerr s2].
  eexists. split; [reflexivity |].
  cbn. rewrite Hsaves. cbn. now rewrite Hs.
Qed.

(** X16.  When the page tree cannot be fetched, [main] logs
    [Failed to fetch page tree: <error>] and exits at once: nothing is
    saved and the deferred [Close] does not run, so the sink stays as
    [Initialize] left it. *)
Theorem main_fatal_skips_Close (env : driver.Env) (configPath : string)
    (cfg : config.Config) (handler : driver.Handler) (s1 : SinkState)
    (fuel : nat) (w : World) (e : error) :
  ready env configPath cfg handler (sink w) s1 ->
  config.PageID (config.Export cfg) <> EmptyString ->
  (forall w0,
      fst (exporter.fetchPageTree fuel (clientOf env cfg)
             (config.PageID (config.Export cfg)) w0) = Err e) ->
  exists w',
    driver.main env configPath fuel w
    = (Err ("Failed to fetch page tree: " ++ e)%string, w') /\
    sink w' = s1 /\
    saves w' = saves w /\
    exists lines,
      logs w' = lines ++ [("Failed to fetch page tree: " ++ e)%string].
Proof.
  intros [Hload [Hlog [Hnew Hinit]]] Hpid Hfetch.
  unfold driver.main. rewrite Hload, Hlog, Hnew.
  fold (clientOf env cfg).
  apply String.eqb_neq in Hpid. rewrite Hpid. cbn [negb].
  unfold bind at 1. unfold log_Printf at 1.
  unfold bind at 1. unfold driver.orFatal at 1. unfold driver.Handler_Initialize.
  cbn [sink logged]. rewrite Hinit.
  unfold bind at 1. unfold bind at 1. unfold log_Printf at 1.
  unfold bind at 1. unfold driver.orFatal at 1.
  match goal with
  | |- context [exporter.fetchPageTree fuel ?c ?p ?w0] =>
      pose proof (Hfetch w0) as Hf;
      pose proof (framed_fetchPageTree c fuel p w0) as Hfr;
      destruct (exporter.fetchPageTree fuel c p w0) as [[pages | e' |] w1]
  end; cbn in Hf; try discriminate Hf.
  injection Hf as ->.
  destruct (Hfr _ _ eq_refl) as [Hl [Hs Hk]].
  eexists. split; [reflexivity |]. cbn.
  split; [exact Hk |]. split; [exact Hs |]. eexists. reflexivity.
Qed.

(** X17.  In space mode with a configured space key, a failure to list
    the pages of the space does not make [main] fail: it logs
    [Failed to export space <key>: failed to fetch pages: <error>], then
    [Export completed successfully!], runs [Close] and ends normally,
    with a count of 0 spaces processed and nothing saved. *)
Theorem main_space_failure_ends_normally (env : driver.Env)
    (configPath : string) (cfg : config.Config) (handler : driver.Handler)
    (s1 : SinkState) (fuel : nat) (w : World) (e : error) :
  ready env configPath cfg handler (sink w) s1 ->
  config.PageID (config.Export cfg) = EmptyString ->
  config.SpaceKey (config.Export cfg) <> EmptyString ->
  (forall w0,
      fst (api.GetPages fuel (clientOf env cfg)
             (config.SpaceKey (config.Export cfg)) w0) = Err e) ->
  exists w',
    driver.main env configPath fuel w
    = (Ok {| driver.location := driver.locationMessage cfg;
             driver.label := "Total spaces processed";
             driver.count := 0 |}, w') /\
    logs w'
    = logs w ++
      [ "🚀 Starting Confluence export process...";
        "🚀 Starting export of space: " ++ config.SpaceKey (config.Export cfg);
        "🔍 Fetching pages from space: " ++ config.SpaceKey (config.Export cfg);
        "❌ Failed to export space " ++ config.SpaceKey (config.Export cfg) ++
        ": failed to fetch pages: " ++ e;
        "🎉 Export completed successfully!" ]%string /\
    saves w' = saves w /\
    sink w' = snd (driver.Close handler s1).
Proof.
  intros [Hload [Hlog [Hnew Hinit]]] Hpid Hkey Hfetch.
  unfold driver.main. rewrite Hload, Hlog, Hnew.
  fold (clientOf env cfg).
  rewrite Hpid. apply String.eqb_neq in Hkey. rewrite Hkey.
  cbn [String.eqb negb].
  unfold bind at 1. unfold log_Printf at 1.
  unfold bind at 1. unfold driver.orFatal at 1. unfold driver.Handler_Initialize.
  cbn [sink logged]. rewrite Hinit.
  unfold bind at 1. unfold bind at 1. unfold ret at 1.
  unfold bind at 1. cbn [driver.exportSpaces models.Key].
  unfold bind at 1. unfold log_Printf at 1.
  unfold exporter.exportSpace. unfold bind at 1. unfold log_Printf at 1.
  unfold bind at 1. unfold wrapErr.
  match goal with
  | |- context [api.GetPages fuel ?c ?k ?w0] =>
      pose proof (Hfetch w0) as Hf;
      pose proof (GetPages_frame c fuel k w0) as Hfr;
      destruct (api.GetPages fuel c k w0) as [[pages | e' |] w1]
  end; cbn in Hf; try discriminate Hf.
  injection Hf as ->.
  destruct (Hfr _ _ eq_refl) as [Hl [Hs Hk]].
  cbn [logs saves sink logged driver.with_sink] in Hl, Hs, Hk.
  unfold bind, log_Printf, ret, driver.Handler_Close.
  cbn [sink logged fst snd]. rewrite Hk.
  destruct (driver.Close handler s1) as [cerr s2].
  eexists. split; [reflexivity |].
  cbn [logs saves sink logged driver.with_sink snd].
  rewrite Hl, Hs. rewrite <- !app_assoc. cbn. auto.
Qed.

End EntryPoint.

Lemma fixtures_ready (server : Request -> error + Response)
    (file : string) (cfg : config.Config) :
  config.LoadConfig fixtures.readFile fixtures.unmarshal file = inr cfg ->
  ready (fixtures.env server) file cfg fixtures.marking
    (sink demo.w0) ["<initialized>"].
Proof.
  intros H. split; [exact H |]. repeat split.
Defined.

Lemma main_tree_counts_every_page_witness :
  exists w',
    driver.main (fixtures.env demo.treeServer) "tree.json" 3 demo.w0
    = (Ok {| driver.location :=
               "✨ Export completed successfully! Data saved to confluence_pages.db";
             driver.label := "Total pages processed";
             driver.count := 4 |}, w') /\
    map savedScope (saves w') = ["TEAM"; "TEAM"; "TEAM"; "TEAM"].
Proof.
  destruct (main_tree_counts_every_page (fixtures.env demo.treeServer)
              "tree.json" (fixtures.treeConfig "R") fixtures.marking
              ["<initialized>"] 3 demo.w0
              [ detailPage (demo.detail "R" []);
                api.childPage "R" (demo.record "A");
                api.childPage "A" (demo.record "A1");
                api.childPage "R" (demo.record "B") ]
              (fixtures_ready demo.treeServer "tree.json"
                 (fixtures.treeConfig "R") eq_refl))
    as [w' [Hrun Hsaves]].
  - discriminate.
  - intros w0. vm_compute. reflexivity.
  - exists w'. split; [exact Hrun |]. rewrite Hsaves. reflexivity.
Defined.

Lemma main_fatal_skips_Close_witness :
  exists w',
    driver.main (fixtures.env fixtures.brokenTreeServer) "tree.json" 5 demo.w0
    = (Err "Failed to fetch page tree: failed to fetch child pages for B1: json: cannot unmarshal",
       w') /\
    sink w' = ["<initialized>"] /\
    saves w' = [].
Proof.
  destruct (main_fatal_skips_Close (fixtures.env fixtures.brokenTreeServer)
              "tree.json" (fixtures.treeConfig "R") fixtures.marking
              ["<initialized>"] 5 demo.w0
              "failed to fetch child pages for B1: json: cannot unmarshal"
              (fixtures_ready fixtures.brokenTreeServer "tree.json"
                 (fixtures.treeConfig "R") eq_refl))
    as [w' [Hrun [Hsink [Hsaves _]]]].
  - discriminate.
  - intros w0. vm_compute. reflexivity.
  - exists w'. split; [exact Hrun |]. split; [exact Hsink | exact Hsaves].
Defined.

Lemma main_space_failure_ends_normally_witness :
  exists w',
    driver.main (fixtures.env demo.failingServer) "db.json" 2 demo.w0
    = (Ok {| driver.location :=
               "✨ Export completed successfully! Data saved to confluence_pages.db";
             driver.label := "Total spaces processed";
             driver.count := 0 |}, w') /\
    logs w'
    = [ "🚀 Starting Confluence export process...";
        "🚀 Starting export of space: TEAM";
        "🔍 Fetching pages from space: TEAM";
        "❌ Failed to export space TEAM: failed to fetch pages: net/http: timeout awaiting response headers";
        "🎉 Export completed successfully!" ] /\
    sink w' = ["<initialized>"; "<closed>"].
Proof.
  destruct (main_space_failure_ends_normally (fixtures.env demo.failingServer)
              "db.json" (fixtures.exportConfig "db" "/srv/out") fixtures.marking
              ["<initialized>"] 2 demo.w0
              "net/http: timeout awaiting response headers"
              (fixtures_ready demo.failingServer "db.json"
                 (fixtures.exportConfig "db" "/srv/out") eq_refl))
    as [w' [Hrun [Hlogs [_ Hsink]]]].
  - reflexivity.
  - discriminate.
  - intros w0. vm_compute. reflexivity.
  - exists w'. split; [exact Hrun |]. split; [exact Hlogs | exact Hsink].
Defined.

(** ** The loop over the spaces *)

Section Spaces.

Context `{Ext : Externals}.












End Spaces.


(* The same run, evaluated: GONE fails, TEAM is exported and counted. *)
Example main_all_spaces_run :
  let '(r, w) := driver.main (fixtures.env fixtures.spacesServer) "all.json" 2
                   demo.w0 in
  option_map driver.count (match r with Ok s => Some s | _ => None end)
  = Some 1%Z /\
  logs w
  = [ "🚀 Starting Confluence export process...";
      "🌍 No space key provided, fetching all accessible spaces...";
      "📚 Found 2 spaces to export";
      "🚀 Starting export of space: GONE";
      "🔍 Fetching pages from space: GONE";
      "❌ Failed to export space GONE: failed to fetch pages: net/http: timeout awaiting response headers";
      "🚀 Starting export of space: TEAM";
      "🔍 Fetching pages from space: TEAM";
      "📚 Found 3 pages to export in space TEAM";
      "❌ Failed to save page Page 3: disk full";
      "✅ Successfully exported space: TEAM";
      "🎉 Export completed successfully!" ].
Proof. vm_compute. split; reflexivity. Qed.

(** ** The cost of the tree walk *)

Section Cost.

Context `{Ext : Externals}.

Lemma GetChildPages_cost (c : api.ConfluenceClient) (fuel : nat)
    (parentPageID : string) (w w' : World) (children : list models.Page) :
  api.GetChildPages fuel c parentPageID w = (Ok children, w') ->
  (1 <= requestsBetween w w')%Z /\
  (25 * (requestsBetween w w' - 1) <= len children)%Z.
Proof.
  intros H. unfold api.GetChildPages in H.
  apply pageLoop_request_bound in H.
  - destruct H as [n [Hreq Hlen]]. unfold requestsBetween, len in *.
    cbn [length] in Hlen. lia.
  - intros start w0 page w1. rewrite fetchChildPages_eq.
    apply fetchWith_Ok_sent.
Qed.

(* The loop over the children, when every walk costs at least one request
   per page and little more. *)
Lemma appendSubtrees_cost (walk : models.Page -> M (list models.Page)) :
  (forall child w res w',
      walk child w = (Ok res, w') ->
      (1 <= len res <= requestsBetween w w')%Z /\
      (25 * (requestsBetween w w' - len res) <= len res - 1)%Z) ->
  forall children pages w res w',
    exporter.appendSubtrees walk children pages w = (Ok res, w') ->
    (len res - len pages <= requestsBetween w w')%Z /\
    (25 * (requestsBetween w w' - (len res - len pages))
     <= len res - len pages - len children)%Z.
Proof.
  intros Hwalk. induction children as [| child rest IH];
    intros pages w res w' H.
  - injection H as <- <-. unfold requestsBetween, len. cbn [length]. lia.
  - cbn [exporter.appendSubtrees] in H. unfold bind in H.
    destruct (walk child w) as [[subtree | e |] w1] eqn:Hw; try discriminate H.
    destruct (Hwalk _ _ _ _ Hw) as [Hn Hc].
    apply IH in H. destruct H as [Hk Hr].
    unfold requestsBetween, len in *. rewrite length_app in Hk, Hr.
    cbn [length]. lia.
Qed.

Lemma collectChildPages_cost (c : api.ConfluenceClient) :
  forall fuel page w res w',
    exporter.collectChildPages fuel c page w = (Ok res, w') ->
    (1 <= len res <= requestsBetween w w')%Z /\
    (25 * (requestsBetween w w' - len res) <= len res - 1)%Z.
Proof.
  induction fuel as [| fuel IH]; intros page w res w' H; [discriminate H |].
  cbn [exporter.collectChildPages] in H. unfold bind in H.
  match type of H with
  | context [wrapErr ?f ?m w] =>
      destruct (wrapErr f m w) as [[children | e |] w1] eqn:Hlist
  end; try discriminate H.
  apply wrapErr_Ok, GetChildPages_cost in Hlist. destruct Hlist as [H1 H25].
  apply (appendSubtrees_cost _ IH) in H. destruct H as [Hk Hr].
  unfold requestsBetween, len in *. cbn [length] in Hk, Hr. lia.
Qed.

(** X19.  The cost of a tree: a call of [fetchPageTree] that returns [n]
    pages has sent at least [n + 1] requests, one for the root page and
    at least one child listing for every page, leaves included, and at
    most [(n - 1) / 25] more. *)
Theorem fetchPageTree_request_cost (c : api.ConfluenceClient) (fuel : nat)
    (rootPageID : string) (w w' : World) (pages : list models.Page) :
  exporter.fetchPageTree fuel c rootPageID w = (Ok pages, w') ->
  (len pages + 1 <= requestsBetween w w')%Z /\
  (25 * (requestsBetween w w' - (len pages + 1)) <= len pages - 1)%Z.
Proof.
  intros H. unfold exporter.fetchPageTree in H. unfold bind at 1 in H.
  match type of H with
  | context [wrapErr ?f ?m w] =>
      destruct (wrapErr f m w) as [[root | e |] w1] eqn:Hroot
  end; try discriminate H.
  apply wrapErr_Ok in Hroot.
  assert (H0 : requestsBetween w w1 = 1%Z).
  { unfold api.GetPage, bind in Hroot. cbv zeta in Hroot.
    rewrite sendRequest_eq in Hroot.
    destruct (buildRequest c "GET" _ _ None) as [e | req];
      [discriminate Hroot |].
    destruct (Do (api.HTTPClient c) req) as [e | resp];
      [discriminate Hroot |].
    destruct (json_Decode_page (RespBody resp)) as [e | d]; cbn in Hroot;
      [discriminate Hroot |].
    injection Hroot as _ <-. unfold requestsBetween, len. cbn.
    rewrite length_app. cbn. lia. }
  unfold bind in H.
  match type of H with
  | context [wrapErr ?f ?m w1] =>
      destruct (wrapErr f m w1) as [[children | e |] w2] eqn:Hlist
  end; try discriminate H.
  apply wrapErr_Ok, GetChildPages_cost in Hlist. destruct Hlist as [H1 H25].
  apply (appendSubtrees_cost _ (collectChildPages_cost c fuel)) in H.
  destruct H as [Hk Hr].
  unfold requestsBetween, len in *. cbn [length] in Hk, Hr. lia.
Qed.

End Cost.

Lemma fetchPageTree_request_cost_witness :
  (4 + 1 <= requestsBetween demo.w0
              (snd (exporter.fetchPageTree 3 (demo.client demo.treeServer)
                      "R" demo.w0)))%Z.
Proof.
  apply (fetchPageTree_request_cost (demo.client demo.treeServer) 3 "R"
           demo.w0
           (snd (exporter.fetchPageTree 3 (demo.client demo.treeServer)
                   "R" demo.w0))
           [ detailPage (demo.detail "R" []);
             api.childPage "R" (demo.record "A");
             api.childPage "A" (demo.record "A1");
             api.childPage "R" (demo.record "B") ]).
  vm_compute. reflexivity.
Defined.
